(** * Font renderer: a shallow embedding of [main.py] and its properties

    The program is a thin pipeline over Pillow: it validates the sprite
    sheet name, loads a font, renders every requested character on a canvas
    of its own and either saves each canvas or pastes all of them, left to
    right, on one sheet.

    Python values are modelled as follows.
    - [str] is [string]; a character is a code point below 256.
    - [int] is [Z].
    - A Pillow image is a mode, a size and a pixel function; only the pixels
      inside the size are meaningful.
    - Printing, saving and raising are effects of a small state and error
      monad over a [World] (the files and the standard output).
    - The font file and the rasteriser are collaborators: [FreeTypeFont]
      gives the bounding box and the pixels that drawing a character
      leaves on a canvas, and an [Env] says which fonts load and which
      paths can be created or written. *)

From Stdlib Require Import ZArith String Ascii List Bool Lia.
From stdpp Require Import gmap strings list fin_maps.

Open Scope string_scope.
Open Scope Z_scope.

(** ** Python strings *)

Module Py.

(** [str.lower] on one code point below 256: the ASCII capitals and the
    Latin-1 capitals (U+00C0 to U+00DE, the multiplication sign apart)
    move up by 32. *)
Definition lower_char (c : ascii) : ascii :=
  let n := N_of_ascii c in
  if ((65 <=? n) && (n <=? 90))%N
     || ((192 <=? n) && (n <=? 222) && negb (n =? 215))%N
  then ascii_of_N (n + 32)
  else c.

Fixpoint lower (s : string) : string :=
  match s with
  | EmptyString => EmptyString
  | String c rest => String (lower_char c) (lower rest)
  end.

(** [s[n:]] for [0 <= n]. *)
Fixpoint slice_from (n : nat) (s : string) : string :=
  match n, s with
  | O, _ => s
  | S n', EmptyString => EmptyString
  | S n', String _ rest => slice_from n' rest
  end.

(** [s[:n]] for [0 <= n]. *)
Fixpoint slice_to (n : nat) (s : string) : string :=
  match n, s with
  | O, _ => EmptyString
  | S n', EmptyString => EmptyString
  | S n', String c rest => String c (slice_to n' rest)
  end.

(** [s.endswith(suffix)]. *)
Definition endswith (s suffix : string) : bool :=
  (String.length suffix <=? String.length s)%nat
  && String.eqb (slice_from (String.length s - String.length suffix) s) suffix.

(** [s.startswith(prefix)]. *)
Definition startswith (s pre : string) : bool :=
  String.eqb (slice_to (String.length pre) s) pre.

(** [os.path.join(a, b)] of [posixpath]: an absolute second segment
    replaces the first. *)
Definition os_path_join (a b : string) : string :=
  if startswith b "/" then b
  else if (String.eqb a "") || endswith a "/" then a ++ b
  else a ++ "/" ++ b.

(** The characters a string literal cannot hold. *)
Definition dquote : string := String (ascii_of_nat 34) EmptyString.
Definition esc : string := String (ascii_of_nat 27) EmptyString.

End Py.

(** ** Pillow images *)

Record pixel := Pixel { red : Z; green : Z; blue : Z; alpha : Z }.

Inductive mode := RGBA | RGB.

Definition mode_eqb (a b : mode) : bool :=
  match a, b with
  | RGBA, RGBA | RGB, RGB => true
  | _, _ => false
  end.

Record Image := {
  im_mode : mode;
  width : Z;
  height : Z;
  getpixel : Z -> Z -> pixel
}.

(** A colour argument: a tuple of three or of four integers. *)
Inductive color :=
| Color3 (r g b : Z)
| Color4 (r g b a : Z).

Inductive exn :=
| ValueError (msg : string)
| OSError (msg : string)
| SystemError (msg : string).

(** ** The world and the monad *)

Record World := {
  files : gmap string Image;
  stdout : list string
}.

Definition M (A : Type) : Type := World -> (exn + A) * World.

Definition ret {A} (a : A) : M A := fun w => (inr a, w).

Definition bind {A B} (m : M A) (k : A -> M B) : M B :=
  fun w =>
    match m w with
    | (inl e, w') => (inl e, w')
    | (inr a, w') => k a w'
    end.

Definition raise {A} (e : exn) : M A := fun w => (inl e, w).

Definition lift {A} (r : exn + A) : M A := fun w => (r, w).

Declare Scope py_scope.
Delimit Scope py_scope with py.
Notation "x <- m ;; k" := (bind m (fun x => k))
  (at level 100, m at next level, right associativity) : py_scope.
Notation "m ;;; k" := (bind m (fun _ => k))
  (at level 100, right associativity) : py_scope.
Open Scope py_scope.

Definition print (line : string) : M unit :=
  fun w => (inr tt, {| files := files w; stdout := stdout w ++ [line] |}).

(** ** [validate_spritesheet_name] *)

Definition warning_text (name : string) : string :=
  Py.esc ++ "[1;33m[Warning]: The spritesheet name " ++ Py.dquote ++ name
  ++ Py.dquote ++ " does not have a .png extension. Using " ++ Py.dquote
  ++ name ++ ".png" ++ Py.dquote ++ " instead." ++ Py.esc ++ "[0m".

Definition validate_spritesheet_name (name : string) : M string :=
  if negb (Py.endswith (Py.lower name) ".png") then
    print (warning_text name) ;;;
    ret (name ++ ".png")
  else ret name.

(** ** Pillow: allocation, pasting, saving *)

(** [CLIP8]: an ink component is cut to a byte. *)
Definition clip8 (v : Z) : Z :=
  if v <? 0 then 0 else if 255 <? v then 255 else v.

(** The ink a colour tuple gives: a missing alpha is 255. *)
Definition ink_of (c : color) : pixel :=
  match c with
  | Color3 r g b => Pixel (clip8 r) (clip8 g) (clip8 b) 255
  | Color4 r g b a => Pixel (clip8 r) (clip8 g) (clip8 b) (clip8 a)
  end.

(** A band an image of this mode does not have reads as 255. *)
Definition in_mode (m : mode) (p : pixel) : pixel :=
  match m with
  | RGBA => p
  | RGB => Pixel (red p) (green p) (blue p) 255
  end.

(** [Image.new(mode, size, color)]. *)
Definition Image_new (m : mode) (size : Z * Z) (c : color) : exn + Image :=
  let '(w, h) := size in
  if (w <? 0) || (h <? 0) then inl (ValueError "Width and height must be >= 0")
  else inr {| im_mode := m; width := w; height := h;
              getpixel := fun _ _ => in_mode m (ink_of c) |}.

(** [im.convert(mode)] between the two modes the program uses. *)
Definition Image_convert (m : mode) (im : Image) : Image :=
  {| im_mode := m; width := width im; height := height im;
     getpixel := fun x y => in_mode m (getpixel im x y) |}.

(** [DIV255] and [BLEND] of Pillow's paste. *)
Definition div255 (a : Z) : Z :=
  let tmp := a + 128 in
  Z.shiftr (Z.shiftr tmp 8 + tmp) 8.

Definition blend (mask in1 in2 : Z) : Z :=
  div255 (in1 * (255 - mask) + in2 * mask).

Definition blend_pixel (mask : Z) (p q : pixel) : pixel :=
  Pixel (blend mask (red p) (red q)) (blend mask (green p) (green q))
        (blend mask (blue p) (blue q)) (blend mask (alpha p) (alpha q)).

(** The part of the box [(x0, y0, x0 + w, y0 + h)] that lies on [self]. *)
Definition in_box (self : Image) (x0 y0 w h x y : Z) : bool :=
  (x0 <=? x) && (x <? x0 + w) && (y0 <=? y) && (y <? y0 + h)
  && (0 <=? x) && (x <? width self) && (0 <=? y) && (y <? height self).

Definition clipped_empty (self : Image) (x0 y0 w h : Z) : bool :=
  let xsize := Z.min (x0 + w) (width self) - Z.max x0 0 in
  let ysize := Z.min (y0 + h) (height self) - Z.max y0 0 in
  (xsize <=? 0) || (ysize <=? 0).

(** [self.paste(im, (x0, y0), mask)]: the source is converted to the mode
    of [self]; the sizes must agree; an empty clipped region is left alone;
    otherwise the mask must have an alpha band, which weighs source against
    destination in every band. *)
Definition Image_paste (self im : Image) (box : Z * Z) (mask : Image)
  : exn + Image :=
  let '(x0, y0) := box in
  let im' := if mode_eqb (im_mode self) (im_mode im) then im
             else Image_convert (im_mode self) im in
  if negb ((width mask =? width im) && (height mask =? height im))
  then inl (ValueError "images do not match")
  else if clipped_empty self x0 y0 (width im) (height im) then inr self
  else match im_mode mask with
       | RGB => inl (ValueError "bad transparency mask")
       | RGBA =>
           inr {| im_mode := im_mode self;
                  width := width self;
                  height := height self;
                  getpixel := fun x y =>
                    if in_box self x0 y0 (width im) (height im) x y
                    then blend_pixel (alpha (getpixel mask (x - x0) (y - y0)))
                                     (getpixel self x y)
                                     (getpixel im' (x - x0) (y - y0))
                    else getpixel self x y |}
       end.

(** ** The collaborators *)

(** A loaded font: [getbbox] is [font.getbbox(char)], the tuple (left, top,
    right, bottom); [text_pixels image xy char fill] is the content of
    [image] after [ImageDraw.Draw(image).text(xy, char, font, fill)]. *)
Record FreeTypeFont := {
  getbbox : ascii -> Z * Z * Z * Z;
  text_pixels : Image -> Z * Z -> ascii -> color -> Z -> Z -> pixel
}.

(** What the run finds on the machine: the fonts that load, the
    directories that can be made, the paths that can be written. *)
Record Env := {
  truetype : string -> Z -> option FreeTypeFont;
  can_makedirs : string -> bool;
  can_write : string -> bool
}.

Definition ImageFont_truetype (env : Env) (path : string) (size : Z)
  : M FreeTypeFont :=
  match truetype env path size with
  | Some font => ret font
  | None => raise (OSError "cannot open resource")
  end.

Definition os_makedirs (env : Env) (path : string) : M unit :=
  if can_makedirs env path then ret tt
  else raise (OSError "cannot create directory").

(** [draw.text] changes the pixels of the canvas, not its mode or size. *)
Definition ImageDraw_text (font : FreeTypeFont) (image : Image) (xy : Z * Z)
  (char : ascii) (fill : color) : Image :=
  {| im_mode := im_mode image; width := width image; height := height image;
     getpixel := text_pixels font image xy char fill |}.

(** [image.save(path)]: the file is opened, then the encoder refuses an
    image without pixels. *)
Definition Image_save (env : Env) (image : Image) (path : string) : M unit :=
  fun w =>
    if negb (can_write env path) then (inl (OSError "cannot write file"), w)
    else if (width image <=? 0) || (height image <=? 0)
    then (inl (SystemError "tile cannot extend outside image"), w)
    else (inr tt, {| files := <[path := image]> (files w);
                     stdout := stdout w |}).

(** ** [render_font] *)

Record RenderRequest := {
  font_path : string;
  output_folder : string;
  characters : string;
  font_size : Z;
  padding : Z * Z * Z * Z;
  bg_type : string;
  export_type : string;
  spritesheet_name : string;
  bg_color : Z * Z * Z;
  text_color : Z * Z * Z
}.

Definition color_of (c : Z * Z * Z) : color :=
  let '(r, g, b) := c in Color3 r g b.

Definition pad_left (req : RenderRequest) : Z :=
  let '(l, _, _, _) := padding req in l.
Definition pad_top (req : RenderRequest) : Z :=
  let '(_, t, _, _) := padding req in t.
Definition pad_right (req : RenderRequest) : Z :=
  let '(_, _, r, _) := padding req in r.
Definition pad_bottom (req : RenderRequest) : Z :=
  let '(_, _, _, b) := padding req in b.

(** The variables the character loop updates. *)
Record locals := {
  images : list Image;
  max_height : Z;
  total_width : Z
}.

Definition initial_locals : locals :=
  {| images := []; max_height := 0; total_width := 0 |}.

(** [font.getbbox(char)[2:]] *)
Definition char_size (font : FreeTypeFont) (char : ascii) : Z * Z :=
  let '(_, _, x1, y1) := getbbox font char in (x1, y1).

Definition img_size (font : FreeTypeFont) (req : RenderRequest) (char : ascii)
  : Z * Z :=
  let char_width := fst (char_size font char) in
  let char_height := snd (char_size font char) in
  (char_width + pad_left req + pad_right req,
   char_height + pad_top req + pad_bottom req).

(** Lines 47 to 50: the canvas before anything is drawn on it. *)
Definition blank_canvas (req : RenderRequest) (size : Z * Z) : exn + Image :=
  if String.eqb (bg_type req) "transparent"
  then Image_new RGBA size (Color4 0 0 0 0)
  else Image_new RGB size (color_of (bg_color req)).

(** Lines 42 to 59: the canvas of one character, drawn. *)
Definition glyph_canvas (font : FreeTypeFont) (req : RenderRequest)
  (char : ascii) : exn + Image :=
  let '(img_width, img_height) := img_size font req char in
  match blank_canvas req (img_width, img_height) with
  | inl e => inl e
  | inr image =>
      let text_x := pad_left req in
      let text_y := pad_top req in
      inr (ImageDraw_text font image (text_x, text_y) char
             (color_of (text_color req)))
  end.

(** One turn of the loop of lines 40 to 66. *)
Definition loop_body (env : Env) (font : FreeTypeFont) (req : RenderRequest)
  (char : ascii) (l : locals) : M locals :=
  image <- lift (glyph_canvas font req char) ;;
  if String.eqb (export_type req) "separate" then
    Image_save env image
      (Py.os_path_join (output_folder req) (String char ".png")) ;;;
    ret l
  else
    ret {| images := images l ++ [image];
           max_height := Z.max (max_height l) (snd (img_size font req char));
           total_width := total_width l + fst (img_size font req char) |}.

Fixpoint char_loop (env : Env) (font : FreeTypeFont) (req : RenderRequest)
  (chars : string) (l : locals) : M locals :=
  match chars with
  | EmptyString => ret l
  | String char rest =>
      l' <- loop_body env font req char l ;;
      char_loop env font req rest l'
  end.

(** Lines 75 to 78. *)
Fixpoint paste_loop (spritesheet : Image) (x_offset : Z) (imgs : list Image)
  : exn + Image :=
  match imgs with
  | [] => inr spritesheet
  | img :: rest =>
      match Image_paste spritesheet img (x_offset, 0) img with
      | inl e => inl e
      | inr spritesheet' => paste_loop spritesheet' (x_offset + width img) rest
      end
  end.

(** The canvas of lines 70 to 74. *)
Definition sheet_canvas (req : RenderRequest) (l : locals) : exn + Image :=
  Image_new RGBA (total_width l, max_height l)
    (if String.eqb (bg_type req) "transparent" then Color4 0 0 0 0
     else color_of (bg_color req)).

(** Lines 69 to 80. *)
Definition export_sheet (env : Env) (req : RenderRequest)
  (sheet_name : string) (l : locals) : M unit :=
  if String.eqb (export_type req) "spritesheet"
     && negb (Nat.eqb (List.length (images l)) 0)
  then
    spritesheet <- lift (sheet_canvas req l) ;;
    spritesheet' <- lift (paste_loop spritesheet 0 (images l)) ;;
    Image_save env spritesheet'
      (Py.os_path_join (output_folder req) sheet_name)
  else ret tt.

Definition render_font (env : Env) (req : RenderRequest) : M unit :=
  sheet_name <-
    (if String.eqb (export_type req) "spritesheet"
     then validate_spritesheet_name (spritesheet_name req)
     else ret (spritesheet_name req)) ;;
  font <- ImageFont_truetype env (font_path req) (font_size req) ;;
  os_makedirs env (output_folder req) ;;;
  l <- char_loop env font req (characters req) initial_locals ;;
  export_sheet env req sheet_name l ;;;
  print "Rendering complete!".

(** ** The words of the specification *)

(** A name that ends in [.png], in any letter case. *)
Definition ends_with_png_any_case (name : string) : Prop :=
  exists stem a b c d,
    name = stem ++ String a (String b (String c (String d EmptyString)))
    /\ a = "."%char
    /\ (b = "p"%char \/ b = "P"%char)
    /\ (c = "n"%char \/ c = "N"%char)
    /\ (d = "g"%char \/ d = "G"%char).

Definition chars_of (s : string) : list ascii := list_ascii_of_string s.

(** The canvas of a character in the words of the specification: the
    glyph's box plus the padding on each side. *)
Definition canvas_width (font : FreeTypeFont) (req : RenderRequest)
  (c : ascii) : Z :=
  fst (char_size font c) + pad_left req + pad_right req.

Definition canvas_height (font : FreeTypeFont) (req : RenderRequest)
  (c : ascii) : Z :=
  snd (char_size font c) + pad_top req + pad_bottom req.

(** The sum of the canvas widths of the characters. *)
Definition sum_of_widths (font : FreeTypeFont) (req : RenderRequest)
  (chars : list ascii) : Z :=
  foldr (fun c acc => canvas_width font req c + acc) 0 chars.

(** The greatest of the canvas heights of a first character and the
    others. *)
Fixpoint max_of_heights (font : FreeTypeFont) (req : RenderRequest)
  (first : ascii) (others : list ascii) : Z :=
  match others with
  | [] => canvas_height font req first
  | c :: rest =>
      Z.max (canvas_height font req first) (max_of_heights font req c rest)
  end.

(** The x-offset the specification gives the i-th canvas: the widths of
    the canvases before it, added up. *)
Definition offset_of (imgs : list Image) (i : nat) : Z :=
  foldr (fun img acc => width img + acc) 0 (take i imgs).



(** The canvases of a list of characters, in order; the first one that
    cannot be allocated ends the list with its error. *)
Fixpoint canvases_of (font : FreeTypeFont) (req : RenderRequest)
  (chars : list ascii) : exn + list Image :=
  match chars with
  | [] => inr []
  | c :: rest =>
      match glyph_canvas font req c with
      | inl e => inl e
      | inr image =>
          match canvases_of font req rest with
          | inl e => inl e
          | inr imgs => inr (image :: imgs)
          end
      end
  end.

(** The name the validator returns. *)
Definition validated (name : string) : string :=
  if Py.endswith (Py.lower name) ".png" then name else name ++ ".png".

Definition sheet_path (req : RenderRequest) : string :=
  Py.os_path_join (output_folder req) (validated (spritesheet_name req)).

(** The world once the name has been validated: a warning may have been
    printed. *)
Definition warned (req : RenderRequest) (w : World) : World :=
  if String.eqb (export_type req) "spritesheet"
  then {| files := files w;
          stdout := stdout w
                    ++ (if Py.endswith (Py.lower (spritesheet_name req)) ".png"
                        then [] else [warning_text (spritesheet_name req)]) |}
  else w.

Definition sheet_name_of (req : RenderRequest) : string :=
  if String.eqb (export_type req) "spritesheet"
  then validated (spritesheet_name req)
  else spritesheet_name req.

(** A pixel whose four bands are bytes. *)
Definition byte_pixel (p : pixel) : Prop :=
  0 <= red p <= 255 /\ 0 <= green p <= 255
  /\ 0 <= blue p <= 255 /\ 0 <= alpha p <= 255.

(** A point of the sheet on which no retained canvas has ink: wherever a
    canvas covers the point, its alpha there is 0. *)
Definition outside_glyphs (imgs : list Image) (x y : Z) : Prop :=
  forall i img,
    imgs !! i = Some img ->
    0 <= x - offset_of imgs i < width img ->
    0 <= y < height img ->
    alpha (getpixel img (x - offset_of imgs i) y) = 0.

Definition byte_range (c : Z * Z * Z) : Prop :=
  let '(r, g, b) := c in
  0 <= r <= 255 /\ 0 <= g <= 255 /\ 0 <= b <= 255.

Definition pixel_of (c : Z * Z * Z) (a : Z) : pixel :=
  let '(r, g, b) := c in Pixel r g b a.

(** The files a list of saves leaves. *)
Definition apply_writes (writes : list (string * Image))
  (fs : gmap string Image) : gmap string Image :=
  foldl (fun m '(path, image) => <[path := image]> m) fs writes.

(** The world after some saves and some printed lines. *)
Definition after (writes : list (string * Image)) (prints : list string)
  (w : World) : World :=
  {| files := apply_writes writes (files w); stdout := stdout w ++ prints |}.

(** A computation whose result, saves and printed lines do not depend on
    the world it starts in. *)
Definition uniform {A} (m : M A) : Prop :=
  exists result writes prints,
    forall w, m w = (result, after writes prints w).

Definition glyph_path (req : RenderRequest) (char : ascii) : string :=
  Py.os_path_join (output_folder req) (String char ".png").

(** The request with another background colour. *)
Definition with_bg_color (req : RenderRequest) (c : Z * Z * Z)
  : RenderRequest :=
  {| font_path := font_path req; output_folder := output_folder req;
     characters := characters req; font_size := font_size req;
     padding := padding req; bg_type := bg_type req;
     export_type := export_type req;
     spritesheet_name := spritesheet_name req;
     bg_color := c; text_color := text_color req |}.

(** The request with another sheet name. *)
Definition with_spritesheet_name (req : RenderRequest) (name : string)
  : RenderRequest :=
  {| font_path := font_path req; output_folder := output_folder req;
     characters := characters req; font_size := font_size req;
     padding := padding req; bg_type := bg_type req;
     export_type := export_type req;
     spritesheet_name := name;
     bg_color := bg_color req; text_color := text_color req |}.

(** The line a run prints last when it ends well. *)
Definition completion_line (result : exn + unit) : list string :=
  match result with
  | inr _ => ["Rendering complete!"]
  | inl _ => []
  end.

(** ** A small font and machine to run the program on *)

(** Every glyph is a block, 3 to 6 pixels wide and 7 high, drawn solid. *)
Definition block_font : FreeTypeFont :=
  {| getbbox := fun c => (0, 0, 3 + Z.of_N (N_of_ascii c) mod 4, 7);
     text_pixels := fun image xy c fill x y =>
       let '(x0, y0) := xy in
       if (x0 <=? x) && (x <? x0 + 3 + Z.of_N (N_of_ascii c) mod 4)
          && (y0 <=? y) && (y <? y0 + 7)
       then in_mode (im_mode image) (ink_of fill)
       else getpixel image x y |}.

(** A font with an empty glyph for every character. *)
Definition empty_font : FreeTypeFont :=
  {| getbbox := fun _ => (0, 0, 0, 0);
     text_pixels := fun image _ _ _ => getpixel image |}.

Definition block_env : Env :=
  {| truetype := fun path _ =>
       if String.eqb path "block.ttf" then Some block_font
       else if String.eqb path "empty.ttf" then Some empty_font
       else None;
     can_makedirs := fun _ => true;
     can_write := fun _ => true |}.

Definition empty_world : World := {| files := ∅; stdout := [] |}.

Definition request (chars : string) (pad : Z * Z * Z * Z) (bg export : string)
  (name : string) : RenderRequest :=
  {| font_path := "block.ttf"; output_folder := "out"; characters := chars;
     font_size := 64; padding := pad; bg_type := bg; export_type := export;
     spritesheet_name := name; bg_color := (255, 255, 255);
     text_color := (0, 0, 0) |}.


Definition sheet_request : RenderRequest :=
  request "AB" (10, 10, 10, 10) "transparent" "spritesheet" "out".

Definition filled_sheet_request : RenderRequest :=
  request "A" (10, 10, 10, 10) "filled" "spritesheet" "spritesheet.png".

Definition empty_sheet_request : RenderRequest :=
  request "" (10, 10, 10, 10) "transparent" "spritesheet" "spritesheet.png".

Definition separate_request : RenderRequest :=
  request "ABA" (10, 10, 10, 10) "transparent" "separate" "spritesheet.png".


Definition atlas_request : RenderRequest :=
  request "AB" (10, 10, 10, 10) "transparent" "atlas" "spritesheet.png".

(** A font whose glyphs differ in height: 5 to 7 pixels. *)
Definition stepped_font : FreeTypeFont :=
  {| getbbox := fun c =>
       (0, 0, 3 + Z.of_N (N_of_ascii c) mod 4, 5 + Z.of_N (N_of_ascii c) mod 3);
     text_pixels := text_pixels block_font |}.

Definition negative_request : RenderRequest :=
  request "AB" (-20, 10, 0, 10) "transparent" "spritesheet" "spritesheet.png".
(** * Properties *)

(** ** Python strings *)

Lemma slice_to_from (n : nat) (s : string) :
  Py.slice_to n s ++ Py.slice_from n s = s.
Proof.
  revert s; induction n as [| n IH]; intros [| c s]; simpl; try reflexivity.
  change (String c (Py.slice_to n s ++ Py.slice_from n s) = String c s).
  f_equal. apply IH.
Qed.

Lemma slice_from_app_length (a b : string) :
  Py.slice_from (String.length a) (a ++ b) = b.
Proof. induction a as [| c a IH]; simpl; [now destruct b | exact IH]. Qed.

Lemma string_length_app (a b : string) :
  String.length (a ++ b) = (String.length a + String.length b)%nat.
Proof. induction a as [| c a IH]; simpl; [reflexivity | now rewrite IH]. Qed.

Lemma endswith_app (a b : string) : Py.endswith (a ++ b) b = true.
Proof.
  unfold Py.endswith. rewrite string_length_app.
  replace (String.length a + String.length b - String.length b)%nat
    with (String.length a) by lia.
  rewrite slice_from_app_length, String.eqb_refl, andb_true_r.
  apply Nat.leb_le. lia.
Qed.

Lemma lower_app (a b : string) : Py.lower (a ++ b) = Py.lower a ++ Py.lower b.
Proof. induction a as [| c a IH]; simpl; [reflexivity | now rewrite IH]. Qed.

Lemma lower_length (s : string) : String.length (Py.lower s) = String.length s.
Proof. induction s as [| c s IH]; simpl; [reflexivity | now rewrite IH]. Qed.

Lemma lower_slice_from (n : nat) (s : string) :
  Py.lower (Py.slice_from n s) = Py.slice_from n (Py.lower s).
Proof.
  revert s; induction n as [| n IH]; intros [| c s]; simpl; auto.
Qed.

Ltac all_ascii c :=
  destruct c as [[] [] [] [] [] [] [] []]; vm_compute;
  try (left; reflexivity); try (right; reflexivity); try discriminate;
  try reflexivity.

Lemma lower_char_dot (c : ascii) :
  Py.lower_char c = "."%char -> c = "."%char.
Proof. all_ascii c. Qed.

Lemma lower_char_p (c : ascii) :
  Py.lower_char c = "p"%char -> c = "p"%char \/ c = "P"%char.
Proof. all_ascii c. Qed.

Lemma lower_char_n (c : ascii) :
  Py.lower_char c = "n"%char -> c = "n"%char \/ c = "N"%char.
Proof. all_ascii c. Qed.

Lemma lower_char_g (c : ascii) :
  Py.lower_char c = "g"%char -> c = "g"%char \/ c = "G"%char.
Proof. all_ascii c. Qed.

(** The test of line 7 holds exactly of the names that end in [.png] in
    some letter case. *)
Lemma endswith_lower_png (name : string) :
  Py.endswith (Py.lower name) ".png" = true <-> ends_with_png_any_case name.
Proof.
  split.
  - intros H. unfold Py.endswith in H. apply andb_prop in H as [Hlen H].
    apply Nat.leb_le in Hlen. apply String.eqb_eq in H.
    rewrite lower_length in *. rewrite <- lower_slice_from in H.
    simpl String.length in *.
    pose proof (slice_to_from (String.length name - 4) name) as Hsplit.
    destruct (Py.slice_from (String.length name - 4) name)
      as [| a [| b [| c [| d [| e t]]]]]; simpl in H; try discriminate.
    injection H as Ha Hb Hc Hd.
    exists (Py.slice_to (String.length name - 4) name), a, b, c, d.
    split; [now symmetry |].
    auto using lower_char_dot, lower_char_p, lower_char_n, lower_char_g.
  - intros (stem & a & b & c & d & -> & -> & Hb & Hc & Hd).
    rewrite lower_app.
    replace (Py.lower (String "." (String b (String c (String d "")))))
      with ".png"; [apply endswith_app |].
    destruct Hb as [-> | ->], Hc as [-> | ->], Hd as [-> | ->]; reflexivity.
Qed.

(** ** C2: the name validator *)

(** C2. A name that does not end in [.png] (in any letter case) comes back
    with [.png] appended once, and one warning is printed; a name that ends
    in [.png] in some letter case comes back as it is and nothing is
    printed. Nothing else in the world changes. *)
Theorem validate_spritesheet_name_spec (name : string) (w : World) :
  (~ ends_with_png_any_case name ->
   validate_spritesheet_name name w
   = (inr (name ++ ".png"),
      {| files := files w; stdout := stdout w ++ [warning_text name] |}))
  /\ (ends_with_png_any_case name ->
      validate_spritesheet_name name w = (inr name, w)).
Proof.
  unfold validate_spritesheet_name. split; intros H.
  - destruct (Py.endswith (Py.lower name) ".png") eqn:E.
    + exfalso. apply H. now apply endswith_lower_png.
    + reflexivity.
  - apply endswith_lower_png in H. now rewrite H.
Qed.

Lemma validate_spritesheet_name_witness :
  validate_spritesheet_name "out" empty_world
  = (inr "out.png",
     {| files := ∅; stdout := [] ++ [warning_text "out"] |})
  /\ validate_spritesheet_name "Sheet.PNG" empty_world
     = (inr "Sheet.PNG", empty_world).
Proof.
  split.
  - apply (validate_spritesheet_name_spec "out" empty_world).
    intros (stem & a & b & c & d & H & _).
    destruct stem as [| ? [| ? [| ? [| ? ?]]]]; discriminate.
  - apply (validate_spritesheet_name_spec "Sheet.PNG" empty_world).
    exists "Sheet", "."%char, "P"%char, "N"%char, "G"%char. tauto.
Defined.

(** ** Pillow *)

Lemma Image_new_inr (m : mode) (w h : Z) (c : color) (image : Image) :
  Image_new m (w, h) c = inr image ->
  0 <= w /\ 0 <= h /\ im_mode image = m /\ width image = w /\ height image = h
  /\ forall x y, getpixel image x y = in_mode m (ink_of c).
Proof.
  unfold Image_new. destruct ((w <? 0) || (h <? 0)) eqn:E; [discriminate |].
  apply orb_false_elim in E as [Hw Hh].
  apply Z.ltb_ge in Hw, Hh. intros [= <-]. simpl. repeat split; auto.
Qed.

Lemma Image_new_ok (m : mode) (w h : Z) (c : color) :
  0 <= w -> 0 <= h -> exists image, Image_new m (w, h) c = inr image.
Proof.
  intros Hw Hh. unfold Image_new.
  apply Z.ltb_ge in Hw, Hh. rewrite Hw, Hh. simpl. eauto.
Qed.

Lemma Image_new_neg (m : mode) (w h : Z) (c : color) :
  w < 0 \/ h < 0 ->
  Image_new m (w, h) c = inl (ValueError "Width and height must be >= 0").
Proof.
  intros H. unfold Image_new.
  destruct H as [H | H]; apply Z.ltb_lt in H; rewrite H;
    [reflexivity | now rewrite orb_true_r].
Qed.

(** ** C3: the canvas of one character *)

Lemma glyph_canvas_inr (font : FreeTypeFont) (req : RenderRequest)
  (char : ascii) (image : Image) :
  glyph_canvas font req char = inr image ->
  width image = canvas_width font req char
  /\ height image = canvas_height font req char
  /\ 0 <= width image /\ 0 <= height image
  /\ im_mode image
     = (if String.eqb (bg_type req) "transparent" then RGBA else RGB).
Proof.
  unfold glyph_canvas, blank_canvas.
  change (img_size font req char)
    with (canvas_width font req char, canvas_height font req char).
  set (w := canvas_width font req char) in *.
  set (h := canvas_height font req char) in *.
  cbn [fst snd].
  destruct (String.eqb (bg_type req) "transparent").
  - destruct (Image_new RGBA (w, h) (Color4 0 0 0 0)) as [e | canvas] eqn:E;
      [discriminate |].
    apply Image_new_inr in E as (? & ? & ? & ? & ? & _).
    intros [= <-]. simpl. repeat split; congruence || lia.
  - destruct (Image_new RGB (w, h) (color_of (bg_color req)))
      as [e | canvas] eqn:E; [discriminate |].
    apply Image_new_inr in E as (? & ? & ? & ? & ? & _).
    intros [= <-]. simpl. repeat split; congruence || lia.
Qed.

Lemma glyph_canvas_ok (font : FreeTypeFont) (req : RenderRequest)
  (char : ascii) :
  0 <= canvas_width font req char ->
  0 <= canvas_height font req char ->
  exists image, glyph_canvas font req char = inr image.
Proof.
  unfold glyph_canvas, blank_canvas.
  change (img_size font req char)
    with (canvas_width font req char, canvas_height font req char).
  set (w := canvas_width font req char) in *.
  set (h := canvas_height font req char) in *.
  cbn [fst snd].
  intros Hw Hh. destruct (String.eqb (bg_type req) "transparent").
  - destruct (Image_new_ok RGBA w h (Color4 0 0 0 0) Hw Hh) as [i ->]. eauto.
  - destruct (Image_new_ok RGB w h (color_of (bg_color req)) Hw Hh) as [i ->].
    eauto.
Qed.

Lemma glyph_canvas_neg (font : FreeTypeFont) (req : RenderRequest)
  (char : ascii) :
  canvas_width font req char < 0 \/ canvas_height font req char < 0 ->
  glyph_canvas font req char
  = inl (ValueError "Width and height must be >= 0").
Proof.
  unfold glyph_canvas, blank_canvas.
  change (img_size font req char)
    with (canvas_width font req char, canvas_height font req char).
  set (w := canvas_width font req char) in *.
  set (h := canvas_height font req char) in *.
  cbn [fst snd].
  intros H. destruct (String.eqb (bg_type req) "transparent");
    now rewrite Image_new_neg.
Qed.

(** C3, as the program has it. The canvas of a character, once allocated,
    is as wide as the glyph's box plus the left and right padding and as
    high as the box plus the top and bottom padding (the box width and
    height being the last two numbers of [getbbox]); neither is negative,
    and a negative one is refused at allocation. Both are positive when
    the box width and height are positive and no padding is negative. *)
Theorem glyph_canvas_size (font : FreeTypeFont) (req : RenderRequest)
  (char : ascii) :
  let w := fst (char_size font char) + pad_left req + pad_right req in
  let h := snd (char_size font char) + pad_top req + pad_bottom req in
  (forall image,
      glyph_canvas font req char = inr image ->
      width image = w /\ height image = h /\ 0 <= w /\ 0 <= h)
  /\ (w < 0 \/ h < 0 ->
      glyph_canvas font req char
      = inl (ValueError "Width and height must be >= 0"))
  /\ (0 < fst (char_size font char) -> 0 < snd (char_size font char) ->
      0 <= pad_left req -> 0 <= pad_top req ->
      0 <= pad_right req -> 0 <= pad_bottom req ->
      exists image,
        glyph_canvas font req char = inr image
        /\ 0 < width image /\ 0 < height image).
Proof.
  intros w h.
  fold (canvas_width font req char) in w.
  fold (canvas_height font req char) in h.
  split; [| split].
  - intros image H. apply glyph_canvas_inr in H. lia.
  - intros H. now apply glyph_canvas_neg.
  - intros. destruct (glyph_canvas_ok font req char) as [image Himage];
      try (unfold canvas_width, canvas_height; lia).
    exists image. split; [assumption |].
    apply glyph_canvas_inr in Himage.
    unfold canvas_width, canvas_height in Himage. lia.
Qed.

Lemma glyph_canvas_size_witness :
  exists image,
    glyph_canvas block_font
      (request "A" (10, 10, 10, 10) "transparent" "separate" "s.png") "A"
    = inr image
    /\ 0 < width image /\ 0 < height image.
Proof.
  apply (glyph_canvas_size block_font
           (request "A" (10, 10, 10, 10) "transparent" "separate" "s.png")
           "A"); vm_compute; congruence.
Defined.

(** C3 as the specification words it fails: with an empty glyph box and
    no padding the canvas is allocated, 0 pixels wide and 0 high. *)
Lemma glyph_canvas_not_positive :
  exists image,
    glyph_canvas empty_font
      (request " " (0, 0, 0, 0) "transparent" "separate" "s.png") " "
    = inr image
    /\ width image = 0 /\ height image = 0
    /\ ~ (0 < width image /\ 0 < height image).
Proof.
  eexists. split; [reflexivity |]. cbn.
  split; [reflexivity |]. split; [reflexivity |].
  intros [H _]. discriminate H.
Qed.

(** ** The character loop when canvases are retained *)

Ltac run := unfold bind, ret, lift, raise in *.

Lemma canvases_of_inr (font : FreeTypeFont) (req : RenderRequest)
  (chars : list ascii) (imgs : list Image) :
  canvases_of font req chars = inr imgs ->
  Forall2 (fun c image => glyph_canvas font req c = inr image) chars imgs.
Proof.
  revert imgs; induction chars as [| c chars IH]; intros imgs; simpl.
  - intros [= <-]. constructor.
  - destruct (glyph_canvas font req c) as [e | image] eqn:E; [discriminate |].
    destruct (canvases_of font req chars) as [e | rest]; [discriminate |].
    intros [= <-]. constructor; auto.
Qed.

Lemma canvases_of_ok (font : FreeTypeFont) (req : RenderRequest)
  (chars : list ascii) :
  Forall (fun c => 0 <= canvas_width font req c
                   /\ 0 <= canvas_height font req c) chars ->
  exists imgs, canvases_of font req chars = inr imgs.
Proof.
  induction 1 as [| c chars [Hw Hh] _ [imgs IH]]; simpl; [eauto |].
  destruct (glyph_canvas_ok font req c Hw Hh) as [image ->].
  rewrite IH. eauto.
Qed.

Lemma canvases_of_sizes (font : FreeTypeFont) (req : RenderRequest)
  (chars : list ascii) (imgs : list Image) :
  canvases_of font req chars = inr imgs ->
  Forall (fun c => 0 <= canvas_width font req c
                   /\ 0 <= canvas_height font req c) chars.
Proof.
  intros H. apply canvases_of_inr in H.
  induction H as [| c image chars imgs Hc _ IH]; constructor; auto.
  apply glyph_canvas_inr in Hc. lia.
Qed.

(** The loop when the export type is not [separate]: the world is left
    alone and the three variables grow by the canvases, in order. *)
Lemma char_loop_retained (env : Env) (font : FreeTypeFont)
  (req : RenderRequest) (chars : string) (l : locals) (w : World) :
  String.eqb (export_type req) "separate" = false ->
  char_loop env font req chars l w
  = match canvases_of font req (chars_of chars) with
    | inl e => (inl e, w)
    | inr imgs =>
        (inr {| images := images l ++ imgs;
                max_height :=
                  foldl (fun m c => Z.max m (canvas_height font req c))
                        (max_height l) (chars_of chars);
                total_width :=
                  total_width l + sum_of_widths font req (chars_of chars) |},
         w)
    end.
Proof.
  intros Hexp. revert l; induction chars as [| c chars IH]; intros l.
  - simpl. run. rewrite app_nil_r, Z.add_0_r. now destruct l.
  - simpl. unfold loop_body at 1. run. rewrite Hexp.
    destruct (glyph_canvas font req c) as [e | image]; [reflexivity |].
    rewrite IH. simpl.
    destruct (canvases_of font req (chars_of chars)) as [e | imgs];
      [reflexivity |].
    rewrite <- app_assoc. simpl. unfold canvas_width, canvas_height.
    f_equal; f_equal; f_equal; lia.
Qed.

Lemma sum_of_widths_nonneg (font : FreeTypeFont) (req : RenderRequest)
  (chars : list ascii) :
  Forall (fun c => 0 <= canvas_width font req c
                   /\ 0 <= canvas_height font req c) chars ->
  0 <= sum_of_widths font req chars.
Proof. induction 1 as [| c chars [Hw _] _ IH]; simpl; lia. Qed.

Lemma foldl_max_heights (font : FreeTypeFont) (req : RenderRequest)
  (m : Z) (first : ascii) (others : list ascii) :
  foldl (fun m c => Z.max m (canvas_height font req c)) m (first :: others)
  = Z.max m (max_of_heights font req first others).
Proof.
  revert m first; induction others as [| c others IH]; intros m first.
  - reflexivity.
  - change (foldl _ m (first :: c :: others))
      with (foldl (fun m c => Z.max m (canvas_height font req c))
              (Z.max m (canvas_height font req first)) (c :: others)).
    rewrite IH. simpl. lia.
Qed.

Lemma max_of_heights_nonneg (font : FreeTypeFont) (req : RenderRequest)
  (first : ascii) (others : list ascii) :
  0 <= canvas_height font req first ->
  0 <= max_of_heights font req first others.
Proof. destruct others; simpl; lia. Qed.

Lemma Image_paste_size (self im mask : Image) (box : Z * Z) (out : Image) :
  Image_paste self im box mask = inr out ->
  width out = width self /\ height out = height self
  /\ im_mode out = im_mode self.
Proof.
  unfold Image_paste. destruct box as [x0 y0].
  destruct (negb _); [discriminate |].
  destruct (clipped_empty _ _ _ _ _); [now intros [= <-] |].
  destruct (im_mode mask); [| discriminate].
  now intros [= <-].
Qed.

Lemma paste_loop_size (imgs : list Image) (sheet : Image) (x : Z)
  (out : Image) :
  paste_loop sheet x imgs = inr out ->
  width out = width sheet /\ height out = height sheet
  /\ im_mode out = im_mode sheet.
Proof.
  revert sheet x; induction imgs as [| img imgs IH]; intros sheet x;
    cbn [paste_loop].
  - now intros [= <-].
  - destruct (Image_paste sheet img (x, 0) img) as [e | sheet'] eqn:E;
      [discriminate |].
    intros H. apply IH in H. apply Image_paste_size in E. intuition congruence.
Qed.

(** ** C1: the size of the sheet *)

Lemma validate_spritesheet_name_run (name : string) (w : World) :
  validate_spritesheet_name name w
  = (inr (validated name),
     {| files := files w;
        stdout := stdout w ++ (if Py.endswith (Py.lower name) ".png" then []
                               else [warning_text name]) |}).
Proof.
  unfold validate_spritesheet_name, validated.
  destruct (Py.endswith (Py.lower name) ".png"); simpl.
  - run. rewrite app_nil_r. now destruct w.
  - reflexivity.
Qed.

Lemma string_eqb_neq (a b : string) : a <> b -> String.eqb a b = false.
Proof. intros H. now apply String.eqb_neq. Qed.

(** What the loop leaves when it retains the canvases of a non-empty
    character sequence. *)
Lemma char_loop_retained_inr (env : Env) (font : FreeTypeFont)
  (req : RenderRequest) (first : ascii) (others : string) (l : locals)
  (w w' : World) :
  String.eqb (export_type req) "separate" = false ->
  char_loop env font req (String first others) initial_locals w = (inr l, w') ->
  w' = w
  /\ canvases_of font req (first :: chars_of others) = inr (images l)
  /\ total_width l = sum_of_widths font req (first :: chars_of others)
  /\ max_height l = max_of_heights font req first (chars_of others)
  /\ 0 <= total_width l /\ 0 <= max_height l.
Proof.
  intros Hexp H. rewrite char_loop_retained in H by assumption.
  change (chars_of (String first others)) with (first :: chars_of others) in H.
  destruct (canvases_of font req (first :: chars_of others))
    as [e | imgs] eqn:E; [discriminate |].
  pose proof (canvases_of_sizes _ _ _ _ E) as Hsizes.
  injection H as <- <-. cbn [images total_width max_height initial_locals].
  pose proof (foldl_max_heights font req 0 first (chars_of others)) as Hfold.
  cbn [foldl] in Hfold. rewrite Hfold.
  pose proof (sum_of_widths_nonneg _ _ _ Hsizes) as Hsum.
  inversion Hsizes as [| ? ? [_ Hh] _]; subst.
  pose proof (max_of_heights_nonneg font req first (chars_of others) Hh).
  unfold sum_of_widths in *. cbn [foldr] in *.
  repeat split; lia.
Qed.

Lemma sheet_canvas_inr (req : RenderRequest) (l : locals) :
  0 <= total_width l -> 0 <= max_height l ->
  exists sheet,
    sheet_canvas req l = inr sheet
    /\ width sheet = total_width l /\ height sheet = max_height l
    /\ im_mode sheet = RGBA.
Proof.
  intros Hw Hh. unfold sheet_canvas.
  destruct (Image_new_ok RGBA _ _
              (if String.eqb (bg_type req) "transparent" then Color4 0 0 0 0
               else color_of (bg_color req)) Hw Hh) as [sheet Hsheet].
  exists sheet. split; [assumption |].
  apply Image_new_inr in Hsheet. tauto.
Qed.

(** [render_font] once the font is loaded and the directory made. *)
Lemma render_font_loaded (env : Env) (req : RenderRequest) (w : World)
  (font : FreeTypeFont) :
  truetype env (font_path req) (font_size req) = Some font ->
  can_makedirs env (output_folder req) = true ->
  render_font env req w
  = match char_loop env font req (characters req) initial_locals
            (warned req w) with
    | (inl e, w1) => (inl e, w1)
    | (inr l, w1) =>
        match export_sheet env req (sheet_name_of req) l w1 with
        | (inl e, w2) => (inl e, w2)
        | (inr _, w2) => print "Rendering complete!" w2
        end
    end.
Proof.
  intros Hfont Hdir.
  unfold render_font, warned, sheet_name_of, ImageFont_truetype, os_makedirs.
  rewrite Hfont, Hdir.
  destruct (String.eqb (export_type req) "spritesheet").
  - unfold bind at 1. rewrite validate_spritesheet_name_run. reflexivity.
  - reflexivity.
Qed.

Lemma render_font_no_font (env : Env) (req : RenderRequest) (w : World) :
  truetype env (font_path req) (font_size req) = None ->
  render_font env req w = (inl (OSError "cannot open resource"), warned req w).
Proof.
  intros Hfont.
  unfold render_font, warned, ImageFont_truetype. rewrite Hfont.
  destruct (String.eqb (export_type req) "spritesheet").
  - unfold bind at 1. rewrite validate_spritesheet_name_run. reflexivity.
  - reflexivity.
Qed.

Lemma render_font_no_directory (env : Env) (req : RenderRequest) (w : World)
  (font : FreeTypeFont) :
  truetype env (font_path req) (font_size req) = Some font ->
  can_makedirs env (output_folder req) = false ->
  render_font env req w
  = (inl (OSError "cannot create directory"), warned req w).
Proof.
  intros Hfont Hdir.
  unfold render_font, warned, ImageFont_truetype, os_makedirs.
  rewrite Hfont, Hdir.
  destruct (String.eqb (export_type req) "spritesheet").
  - unfold bind at 1. rewrite validate_spritesheet_name_run. reflexivity.
  - reflexivity.
Qed.

(** C1. In sheet mode, for a non-empty character sequence, the canvas of
    the sheet is as wide as the canvases of all the characters together
    and as high as the highest of them: the canvas allocated once the loop
    is through, the canvas after the pasting, and the image in the file of
    a run that ends well. *)
Theorem sheet_size (env : Env) (font : FreeTypeFont) (req : RenderRequest)
  (first : ascii) (others : string) :
  export_type req = "spritesheet" ->
  characters req = String first others ->
  truetype env (font_path req) (font_size req) = Some font ->
  let W := sum_of_widths font req (chars_of (characters req)) in
  let H := max_of_heights font req first (chars_of others) in
  (forall l w w',
      char_loop env font req (characters req) initial_locals w = (inr l, w') ->
      exists sheet,
        sheet_canvas req l = inr sheet
        /\ width sheet = W /\ height sheet = H
        /\ forall out,
            paste_loop sheet 0 (images l) = inr out ->
            width out = W /\ height out = H)
  /\ (forall w w',
        render_font env req w = (inr tt, w') ->
        exists out,
          files w' !! sheet_path req = Some out
          /\ width out = W /\ height out = H).
Proof.
  intros Hexp Hchars Hfont W H.
  assert (Hsep : String.eqb (export_type req) "separate" = false)
    by now rewrite Hexp.
  assert (Hloop : forall l w w',
             char_loop env font req (characters req) initial_locals w
             = (inr l, w') ->
             exists sheet,
               sheet_canvas req l = inr sheet
               /\ width sheet = W /\ height sheet = H
               /\ forall out,
                   paste_loop sheet 0 (images l) = inr out ->
                   width out = W /\ height out = H).
  { intros l w w' Hl. rewrite Hchars in Hl.
    apply char_loop_retained_inr in Hl as (_ & _ & Hw & Hh & Hw0 & Hh0);
      [| assumption].
    destruct (sheet_canvas_inr req l Hw0 Hh0) as (sheet & Hs & Hsw & Hsh & _).
    exists sheet. unfold W, H. rewrite Hchars.
    change (chars_of (String first others)) with (first :: chars_of others).
    repeat split; try congruence.
    all: apply paste_loop_size in H0; intuition congruence. }
  split; [exact Hloop |].
  intros w w' Hrun.
  destruct (can_makedirs env (output_folder req)) eqn:Hdir;
    [| now rewrite (render_font_no_directory env req w font) in Hrun].
  rewrite (render_font_loaded env req w font) in Hrun by assumption.
  destruct (char_loop env font req (characters req) initial_locals _)
    as [[e | l] w1] eqn:Hl; [discriminate |].
  pose proof Hl as Hl'. rewrite Hchars in Hl'.
  apply char_loop_retained_inr in Hl' as (-> & Himgs & _); [| assumption].
  destruct (Hloop _ _ _ Hl) as (sheet & Hs & _ & _ & Hout).
  unfold export_sheet, sheet_name_of in Hrun. rewrite Hexp in Hrun.
  change (String.eqb "spritesheet" "spritesheet") with true in Hrun.
  assert (Hne : Nat.eqb (List.length (images l)) 0 = false).
  { simpl in Himgs.
    destruct (glyph_canvas font req first); [discriminate |].
    destruct (canvases_of font req (chars_of others)); [discriminate |].
    injection Himgs as <-. reflexivity. }
  rewrite Hne in Hrun. cbn [andb negb] in Hrun. run. rewrite Hs in Hrun.
  destruct (paste_loop sheet 0 (images l)) as [e | out] eqn:Hp;
    [discriminate |].
  unfold Image_save, print in Hrun.
  destruct (negb _); [discriminate |].
  destruct (_ || _); [discriminate |].
  injection Hrun as <-. exists out. cbn [files]. unfold sheet_path.
  split; [apply lookup_insert_eq | now apply Hout].
Qed.

Lemma sheet_size_witness :
  exists out,
    files (snd (render_font block_env sheet_request empty_world))
      !! "out/out.png" = Some out
    /\ width out = 49 /\ height out = 27.
Proof.
  destruct (sheet_size block_env block_font sheet_request "A" "B"
              eq_refl eq_refl eq_refl) as [_ H].
  apply (H empty_world).
  rewrite (surjective_pairing (render_font block_env sheet_request
                                 empty_world)) at 1.
  f_equal.
Defined.

(** ** Pasting *)

Lemma div255_exact (a : Z) : 0 <= a <= 255 -> div255 (a * 255) = a.
Proof.
  intros Ha. unfold div255. rewrite !Z.shiftr_div_pow2 by lia.
  change (2 ^ 8) with 256.
  pose proof (Z.div_mod (a * 255 + 128) 256 ltac:(lia)) as H1.
  pose proof (Z.mod_pos_bound (a * 255 + 128) 256 ltac:(lia)) as H2.
  symmetry. apply Z.div_unique with
    (r := (a * 255 + 128) / 256 + a * 255 + 128 - 256 * a); lia.
Qed.

(** A mask of 0 keeps the destination. *)
Lemma blend_mask_0 (a b : Z) : 0 <= a <= 255 -> blend 0 a b = a.
Proof.
  intros Ha. unfold blend. rewrite Z.mul_0_r, Z.add_0_r, Z.sub_0_r.
  now apply div255_exact.
Qed.

(** A mask of 255 takes the source. *)
Lemma blend_mask_255 (a b : Z) : 0 <= b <= 255 -> blend 255 a b = b.
Proof.
  intros Hb. unfold blend. rewrite Z.sub_diag, Z.mul_0_r, Z.add_0_l.
  now apply div255_exact.
Qed.

Lemma blend_pixel_mask_0 (p q : pixel) :
  byte_pixel p -> blend_pixel 0 p q = p.
Proof.
  intros (Hr & Hg & Hb & Ha). unfold blend_pixel.
  rewrite !blend_mask_0 by assumption. now destruct p.
Qed.


(** A canvas without an alpha band cannot be its own mask: the paste
    goes through only when no pixel of the canvas falls on the sheet. *)
Lemma Image_paste_rgb_mask (self img : Image) (box : Z * Z) :
  im_mode img = RGB ->
  Image_paste self img box img
  = if clipped_empty self (fst box) (snd box) (width img) (height img)
    then inr self
    else inl (ValueError "bad transparency mask").
Proof.
  intros Hmode. unfold Image_paste. destruct box as [x0 y0].
  rewrite !Z.eqb_refl. cbn [andb negb fst snd].
  destruct (clipped_empty _ _ _ _ _); [reflexivity |].
  now rewrite Hmode.
Qed.

(** Where the mask is 0 the paste keeps the pixel of the destination. *)
Lemma Image_paste_keeps (self im mask out : Image) (x0 y0 x y : Z) :
  Image_paste self im (x0, y0) mask = inr out ->
  byte_pixel (getpixel self x y) ->
  (x0 <= x < x0 + width im -> y0 <= y < y0 + height im ->
   alpha (getpixel mask (x - x0) (y - y0)) = 0) ->
  getpixel out x y = getpixel self x y.
Proof.
  unfold Image_paste. intros H Hbyte Hmask.
  destruct (negb _); [discriminate |].
  destruct (clipped_empty _ _ _ _ _); [now injection H as <- |].
  destruct (im_mode mask); [| discriminate].
  injection H as <-. cbn [getpixel].
  destruct (in_box self x0 y0 (width im) (height im) x y) eqn:Hbox;
    [| reflexivity].
  unfold in_box in Hbox. rewrite !andb_true_iff in Hbox.
  rewrite Hmask by lia. now apply blend_pixel_mask_0.
Qed.

Lemma offset_of_0 (imgs : list Image) : offset_of imgs 0 = 0.
Proof. unfold offset_of. now rewrite take_0. Qed.

Lemma offset_of_S (img : Image) (imgs : list Image) (i : nat) :
  offset_of (img :: imgs) (S i) = width img + offset_of imgs i.
Proof. reflexivity. Qed.



Lemma paste_loop_rgb (imgs : list Image) (sheet : Image) (x : Z)
  (out : Image) :
  Forall (fun img => im_mode img = RGB) imgs ->
  paste_loop sheet x imgs = inr out -> out = sheet.
Proof.
  intros H. revert sheet x.
  induction H as [| img imgs Hmode _ IH]; intros sheet x; cbn [paste_loop].
  - now intros [= <-].
  - rewrite Image_paste_rgb_mask by assumption.
    destruct (clipped_empty _ _ _ _ _); [apply IH | discriminate].
Qed.

(** A point of the sheet on which no pasted canvas has ink is after the
    loop what it was before. *)
Lemma paste_loop_outside (imgs : list Image) (sheet : Image) (x0 : Z)
  (out : Image) (x y : Z) :
  paste_loop sheet x0 imgs = inr out ->
  byte_pixel (getpixel sheet x y) ->
  (forall i img,
      imgs !! i = Some img ->
      0 <= x - (x0 + offset_of imgs i) < width img ->
      0 <= y < height img ->
      alpha (getpixel img (x - (x0 + offset_of imgs i)) y) = 0) ->
  getpixel out x y = getpixel sheet x y.
Proof.
  revert sheet x0; induction imgs as [| img imgs IH]; intros sheet x0;
    cbn [paste_loop].
  - now intros [= <-] _ _.
  - destruct (Image_paste sheet img (x0, 0) img) as [e | sheet'] eqn:E;
      [discriminate |].
    intros Hout Hbyte Hmask.
    assert (Hkeep : getpixel sheet' x y = getpixel sheet x y).
    { apply (Image_paste_keeps _ _ _ _ _ _ _ _ E Hbyte).
      intros Hx Hy. rewrite Z.sub_0_r.
      specialize (Hmask 0%nat img eq_refl).
      rewrite offset_of_0, Z.add_0_r in Hmask. apply Hmask; lia. }
    rewrite <- Hkeep. apply (IH sheet' (x0 + width img) Hout).
    + now rewrite Hkeep.
    + intros i im Hi Hx Hy.
      specialize (Hmask (S i) im Hi). rewrite offset_of_S in Hmask.
      rewrite Z.add_assoc in Hmask. now apply Hmask.
Qed.

(** A point off the box of a paste keeps its pixel. *)
Lemma Image_paste_elsewhere (self im mask out : Image) (x0 y0 x y : Z) :
  Image_paste self im (x0, y0) mask = inr out ->
  ~ (x0 <= x < x0 + width im /\ y0 <= y < y0 + height im) ->
  getpixel out x y = getpixel self x y.
Proof.
  unfold Image_paste. intros H Hout.
  destruct (negb _); [discriminate |].
  destruct (clipped_empty _ _ _ _ _); [now injection H as <- |].
  destruct (im_mode mask); [| discriminate].
  injection H as <-. cbn [getpixel].
  destruct (in_box self x0 y0 (width im) (height im) x y) eqn:Hbox;
    [| reflexivity].
  unfold in_box in Hbox. rewrite !andb_true_iff in Hbox. lia.
Qed.

(** A point of the sheet under a pasted canvas gets the pixel of the
    canvas, weighed against what was there by the alpha of the canvas. *)
Lemma Image_paste_at (self im out : Image) (x0 y0 x y : Z) :
  Image_paste self im (x0, y0) im = inr out ->
  im_mode self = RGBA -> im_mode im = RGBA ->
  0 <= x < width im -> 0 <= y < height im ->
  0 <= x0 + x < width self -> 0 <= y0 + y < height self ->
  getpixel out (x0 + x) (y0 + y)
  = blend_pixel (alpha (getpixel im x y)) (getpixel self (x0 + x) (y0 + y))
      (getpixel im x y).
Proof.
  unfold Image_paste. intros H Hself Him Hx Hy Hsx Hsy.
  rewrite !Z.eqb_refl in H. cbn [andb negb] in H.
  assert (Hclip : clipped_empty self x0 y0 (width im) (height im) = false).
  { unfold clipped_empty. apply orb_false_intro; apply Z.leb_gt; lia. }
  rewrite Hclip, Him, Hself in H. cbn [mode_eqb] in H.
  injection H as <-. cbn [getpixel].
  assert (Hbox : in_box self x0 y0 (width im) (height im) (x0 + x) (y0 + y)
                 = true).
  { unfold in_box. rewrite !andb_true_iff.
    repeat split; (apply Z.leb_le || apply Z.ltb_lt); lia. }
  rewrite Hbox. now replace (x0 + x - x0) with x by lia;
    replace (y0 + y - y0) with y by lia.
Qed.

(** The loop leaves alone what lies left of its starting offset. *)
Lemma paste_loop_left (imgs : list Image) (sheet : Image) (x0 : Z)
  (out : Image) (x y : Z) :
  paste_loop sheet x0 imgs = inr out ->
  Forall (fun img => 0 <= width img) imgs ->
  x < x0 ->
  getpixel out x y = getpixel sheet x y.
Proof.
  intros H Hwidths. revert sheet x0 H.
  induction Hwidths as [| img imgs Hw _ IH]; intros sheet x0;
    cbn [paste_loop].
  - now intros [= <-].
  - destruct (Image_paste sheet img (x0, 0) img) as [e | sheet'] eqn:E;
      [discriminate |].
    intros Hout Hx.
    rewrite (IH sheet' (x0 + width img) Hout) by lia.
    apply (Image_paste_elsewhere _ _ _ _ _ _ _ _ E). lia.
Qed.

(** The i-th canvas lands at its offset: under it the sheet shows the
    canvas over what the sheet held before the loop. *)
Lemma paste_loop_at (imgs : list Image) (sheet : Image) (x0 : Z)
  (out : Image) (i : nat) (img : Image) (x y : Z) :
  paste_loop sheet x0 imgs = inr out ->
  im_mode sheet = RGBA ->
  Forall (fun img => im_mode img = RGBA /\ 0 <= width img) imgs ->
  imgs !! i = Some img ->
  0 <= x < width img -> 0 <= y < height img ->
  0 <= x0 + offset_of imgs i + x < width sheet -> y < height sheet ->
  getpixel out (x0 + offset_of imgs i + x) y
  = blend_pixel (alpha (getpixel img x y))
      (getpixel sheet (x0 + offset_of imgs i + x) y) (getpixel img x y).
Proof.
  intros H Hmode Hall. revert sheet x0 i H Hmode.
  induction Hall as [| img0 imgs [Hm0 Hw0] Hall IH]; intros sheet x0 i;
    cbn [paste_loop]; [intros _ _ Hi; discriminate Hi |].
  destruct (Image_paste sheet img0 (x0, 0) img0) as [e | sheet'] eqn:E;
    [discriminate |].
  pose proof (Image_paste_size _ _ _ _ _ E) as (Hsw & Hsh & Hsm).
  intros Hout Hmode Hi Hx Hy Hsx Hsy. destruct i as [| i].
  - injection Hi as ->. rewrite offset_of_0, Z.add_0_r in *.
    assert (Hwidths : Forall (fun img => 0 <= width img) imgs)
      by (eapply Forall_impl; [exact Hall | cbn; tauto]).
    rewrite (paste_loop_left imgs sheet' (x0 + width img) out)
      by (assumption || lia).
    pose proof (Image_paste_at sheet img sheet' x0 0 x y E Hmode Hm0 Hx Hy Hsx)
      as Hat.
    rewrite !Z.add_0_l in Hat. apply Hat. lia.
  - cbn [lookup list_lookup] in Hi. rewrite offset_of_S in *.
    assert (Hoff : 0 <= offset_of imgs i).
    { clear -Hall. revert i. induction Hall as [| a imgs [_ Ha] _ IH];
        intros [| i]; try (unfold offset_of; cbn; lia).
      rewrite offset_of_S. specialize (IH i). lia. }
    replace (x0 + (width img0 + offset_of imgs i) + x)
      with (x0 + width img0 + offset_of imgs i + x) in * by lia.
    rewrite (IH sheet' (x0 + width img0) i Hout) by
      (try assumption; try congruence; try lia).
    f_equal. apply (Image_paste_elsewhere _ _ _ _ _ _ _ _ E). lia.
Qed.

Lemma foldl_max_ge (font : FreeTypeFont) (req : RenderRequest)
  (chars : list ascii) (m : Z) :
  m <= foldl (fun m c => Z.max m (canvas_height font req c)) m chars.
Proof.
  revert m; induction chars as [| c chars IH]; intros m; cbn [foldl];
    [lia |].
  specialize (IH (Z.max m (canvas_height font req c))). lia.
Qed.

(** What the loop leaves when it retains the canvases, for any character
    sequence. *)
Lemma char_loop_retained_locals (env : Env) (font : FreeTypeFont)
  (req : RenderRequest) (chars : string) (l : locals) (w w' : World) :
  String.eqb (export_type req) "separate" = false ->
  char_loop env font req chars initial_locals w = (inr l, w') ->
  w' = w
  /\ canvases_of font req (chars_of chars) = inr (images l)
  /\ total_width l = sum_of_widths font req (chars_of chars)
  /\ max_height l
     = foldl (fun m c => Z.max m (canvas_height font req c)) 0 (chars_of chars)
  /\ 0 <= total_width l /\ 0 <= max_height l.
Proof.
  intros Hexp H. rewrite char_loop_retained in H by assumption.
  destruct (canvases_of font req (chars_of chars)) as [e | imgs] eqn:E;
    [discriminate |].
  pose proof (sum_of_widths_nonneg _ _ _ (canvases_of_sizes _ _ _ _ E)).
  injection H as <- <-. cbn [images total_width max_height initial_locals].
  pose proof (foldl_max_ge font req (chars_of chars) 0).
  repeat split; lia.
Qed.

Lemma sum_of_widths_images (font : FreeTypeFont) (req : RenderRequest)
  (chars : list ascii) (imgs : list Image) :
  Forall2 (fun c image => glyph_canvas font req c = inr image) chars imgs ->
  sum_of_widths font req chars = foldr (fun img acc => width img + acc) 0 imgs
  /\ Forall (fun img => 0 <= width img) imgs.
Proof.
  induction 1 as [| c image chars imgs Hc _ [IHs IHw]];
    [split; [reflexivity | constructor] |].
  apply glyph_canvas_inr in Hc as (Hw & _ & Hw0 & _).
  unfold sum_of_widths in *. cbn [foldr]. rewrite IHs, Hw.
  split; [reflexivity | now constructor].
Qed.

Lemma offset_of_le_total (imgs : list Image) (i : nat) (img : Image) :
  Forall (fun img => 0 <= width img) imgs ->
  imgs !! i = Some img ->
  0 <= offset_of imgs i
  /\ offset_of imgs i + width img
     <= foldr (fun img acc => width img + acc) 0 imgs.
Proof.
  intros H. revert i.
  induction H as [| img0 imgs Hw0 Hall IH]; intros i Hi; [discriminate Hi |].
  assert (Hsum : 0 <= foldr (fun img acc => width img + acc) 0 imgs).
  { clear -Hall. induction Hall; cbn [foldr]; lia. }
  destruct i as [| i].
  - injection Hi as ->. rewrite offset_of_0. cbn [foldr]. lia.
  - cbn [lookup list_lookup] in Hi. rewrite offset_of_S. cbn [foldr].
    specialize (IH i Hi). lia.
Qed.

Lemma height_le_max (font : FreeTypeFont) (req : RenderRequest)
  (chars : list ascii) (imgs : list Image) (i : nat) (img : Image) (m : Z) :
  Forall2 (fun c image => glyph_canvas font req c = inr image) chars imgs ->
  imgs !! i = Some img ->
  height img <= foldl (fun m c => Z.max m (canvas_height font req c)) m chars.
Proof.
  intros H. revert i m.
  induction H as [| c image chars imgs Hc _ IH]; intros i m Hi;
    [discriminate Hi |].
  cbn [foldl]. destruct i as [| i].
  - injection Hi as ->. apply glyph_canvas_inr in Hc as (_ & -> & _).
    pose proof (foldl_max_ge font req chars
                  (Z.max m (canvas_height font req c))). lia.
  - cbn [lookup list_lookup] in Hi. now apply (IH i).
Qed.



Lemma canvases_of_modes (font : FreeTypeFont) (req : RenderRequest)
  (chars : list ascii) (imgs : list Image) :
  canvases_of font req chars = inr imgs ->
  Forall (fun img => im_mode img
                     = if String.eqb (bg_type req) "transparent"
                       then RGBA else RGB) imgs.
Proof.
  intros H. apply canvases_of_inr in H.
  induction H as [| c image chars imgs Hc _ IH]; constructor; auto.
  now apply glyph_canvas_inr in Hc as (_ & _ & _ & _ & ->).
Qed.


(** ** C4: the order and the places of the pasted canvases *)



(** ** C5: the canvases as their own masks *)

(** With any other background the canvases are RGB, and the first paste
    of a canvas that has pixels raises: a filled sheet is never written. *)
Lemma filled_sheet_fails (env : Env) (font : FreeTypeFont)
  (req : RenderRequest) (first : ascii) (others : string) (w : World) :
  export_type req = "spritesheet" ->
  bg_type req <> "transparent" ->
  characters req = String first others ->
  truetype env (font_path req) (font_size req) = Some font ->
  can_makedirs env (output_folder req) = true ->
  Forall (fun c => 0 <= canvas_width font req c
                   /\ 0 <= canvas_height font req c)
    (chars_of (characters req)) ->
  0 < canvas_width font req first ->
  0 < canvas_height font req first ->
  render_font env req w
  = (inl (ValueError "bad transparency mask"), warned req w).
Proof.
  intros Hexp Hbg Hchars Hfont Hdir Hsizes Hw Hh.
  assert (Hsep : String.eqb (export_type req) "separate" = false)
    by now rewrite Hexp.
  rewrite (render_font_loaded env req w font) by assumption.
  destruct (canvases_of_ok font req _ Hsizes) as [imgs Himgs].
  destruct (char_loop env font req (characters req) initial_locals
              (warned req w)) as [[e | l] w1] eqn:Hl.
  { rewrite char_loop_retained, Himgs in Hl by assumption. discriminate. }
  pose proof Hl as Hl'. rewrite Hchars in Hl'.
  apply char_loop_retained_inr in Hl'
    as (-> & Hcanvases & Htw & Hmh & Htw0 & Hmh0); [| assumption].
  destruct (sheet_canvas_inr req l Htw0 Hmh0) as (sheet & Hs & Hsw & Hsh & _).
  cbn [canvases_of] in Hcanvases.
  destruct (glyph_canvas font req first) as [e | image] eqn:Hfirst;
    [discriminate |].
  destruct (canvases_of font req (chars_of others)) as [e | rest] eqn:Hrest;
    [discriminate |].
  injection Hcanvases as Himages.
  apply glyph_canvas_inr in Hfirst as (Hiw & Hih & _ & _ & Hmode).
  rewrite (string_eqb_neq _ _ Hbg) in Hmode.
  unfold export_sheet. rewrite Hexp, <- Himages.
  change (String.eqb "spritesheet" "spritesheet") with true.
  cbn [List.length Nat.eqb negb andb]. run. rewrite Hs.
  cbn [paste_loop]. rewrite Image_paste_rgb_mask by assumption.
  assert (Hclip : clipped_empty sheet 0 0 (width image) (height image)
                  = false).
  { unfold clipped_empty. apply orb_false_intro; apply Z.leb_gt.
    - rewrite Hsw, Htw, Hiw. unfold sum_of_widths. cbn [foldr].
      apply canvases_of_sizes in Hrest.
      pose proof (sum_of_widths_nonneg _ _ _ Hrest) as Hsum.
      unfold sum_of_widths in Hsum. lia.
    - rewrite Hsh, Hmh, Hih.
      destruct (chars_of others); cbn [max_of_heights]; lia. }
  cbn [fst snd]. rewrite Hclip. reflexivity.
Qed.

(** C5 on the program: the request [--bg_type filled --export_type
    spritesheet] for the one character A, which the command line accepts,
    ends in [ValueError: bad transparency mask] at the first paste, and
    no file is written. *)
Theorem filled_sheet_paste_raises :
  fst (render_font block_env filled_sheet_request empty_world)
  = inl (ValueError "bad transparency mask")
  /\ files (snd (render_font block_env filled_sheet_request empty_world)) = ∅.
Proof.
  assert (H : render_font block_env filled_sheet_request empty_world
              = (inl (ValueError "bad transparency mask"),
                 warned filled_sheet_request empty_world)).
  { apply (filled_sheet_fails block_env block_font filled_sheet_request
             "A" ""); try reflexivity; try discriminate.
    repeat constructor; discriminate. }
  rewrite H. split; reflexivity.
Qed.

(** ** C6: the background of the sheet *)

Lemma clip8_byte (v : Z) : 0 <= v <= 255 -> clip8 v = v.
Proof.
  intros H. unfold clip8.
  destruct (Z.ltb_spec v 0); [lia |]. destruct (Z.ltb_spec 255 v); lia.
Qed.

Lemma ink_of_byte_range (c : Z * Z * Z) :
  byte_range c -> ink_of (color_of c) = pixel_of c 255.
Proof.
  destruct c as [[r g] b]. intros (Hr & Hg & Hb). cbn.
  now rewrite !clip8_byte.
Qed.

(** The fill of the sheet is the fill of a blank glyph canvas. *)
Lemma sheet_fill_as_blank_canvas (req : RenderRequest) (l : locals)
  (sheet canvas : Image) (size : Z * Z) (x y x' y' : Z) :
  sheet_canvas req l = inr sheet ->
  blank_canvas req size = inr canvas ->
  getpixel sheet x y = getpixel canvas x' y'.
Proof.
  unfold sheet_canvas, blank_canvas. destruct size as [cw ch].
  intros Hs Hc. destruct (String.eqb (bg_type req) "transparent").
  - apply Image_new_inr in Hs as (_ & _ & _ & _ & _ & ->).
    apply Image_new_inr in Hc as (_ & _ & _ & _ & _ & ->). reflexivity.
  - apply Image_new_inr in Hs as (_ & _ & _ & _ & _ & ->).
    apply Image_new_inr in Hc as (_ & _ & _ & _ & _ & ->).
    destruct (bg_color req) as [[r g] b]. reflexivity.
Qed.

(** C6. In sheet mode the canvas of the sheet is allocated with an alpha
    band and filled as a blank glyph canvas is: with transparent pixels
    when the background type is transparent, and then every point of the
    composed sheet on which no glyph canvas has ink is still transparent;
    with the opaque background colour otherwise, and then every point of a
    composed sheet has that colour exactly. *)
Theorem sheet_background (env : Env) (font : FreeTypeFont)
  (req : RenderRequest) (l : locals) (w w' : World) :
  export_type req = "spritesheet" ->
  char_loop env font req (characters req) initial_locals w = (inr l, w') ->
  exists sheet,
    sheet_canvas req l = inr sheet
    /\ im_mode sheet = RGBA
    /\ (forall size canvas x y,
           blank_canvas req size = inr canvas ->
           getpixel sheet x y = getpixel canvas x y)
    /\ (bg_type req = "transparent" ->
        (forall x y, getpixel sheet x y = Pixel 0 0 0 0)
        /\ forall out x y,
            paste_loop sheet 0 (images l) = inr out ->
            outside_glyphs (images l) x y ->
            getpixel out x y = Pixel 0 0 0 0)
    /\ (bg_type req <> "transparent" ->
        byte_range (bg_color req) ->
        (forall x y, getpixel sheet x y = pixel_of (bg_color req) 255)
        /\ forall out x y,
            paste_loop sheet 0 (images l) = inr out ->
            getpixel out x y = pixel_of (bg_color req) 255).
Proof.
  intros Hexp Hl.
  apply char_loop_retained_locals in Hl as (_ & Himgs & _ & _ & Hw0 & Hh0);
    [| now rewrite Hexp].
  destruct (sheet_canvas_inr req l Hw0 Hh0) as (sheet & Hs & _ & _ & Hmode).
  exists sheet. split; [assumption |]. split; [assumption |].
  split; [| split].
  - intros size canvas x y Hc.
    apply (sheet_fill_as_blank_canvas req l sheet canvas size); assumption.
  - intros Hbg.
    assert (Hfill : forall x y, getpixel sheet x y = Pixel 0 0 0 0).
    { intros x y. unfold sheet_canvas in Hs. rewrite Hbg in Hs.
      apply Image_new_inr in Hs as (_ & _ & _ & _ & _ & ->). reflexivity. }
    split; [exact Hfill |].
    intros out x y Hout Houtside. rewrite <- (Hfill x y).
    apply (paste_loop_outside _ _ _ _ _ _ Hout).
    + rewrite Hfill. unfold byte_pixel. cbn. lia.
    + intros i img Hi Hx Hy. rewrite Z.add_0_l in *.
      now apply (Houtside i img).
  - intros Hbg Hrange.
    assert (Hfill : forall x y,
               getpixel sheet x y = pixel_of (bg_color req) 255).
    { intros x y. unfold sheet_canvas in Hs.
      rewrite (string_eqb_neq _ _ Hbg) in Hs.
      apply Image_new_inr in Hs as (_ & _ & _ & _ & _ & ->).
      now apply ink_of_byte_range. }
    split; [exact Hfill |].
    intros out x y Hout.
    assert (Hsame : out = sheet); [| now rewrite Hsame].
    apply (paste_loop_rgb (images l) sheet 0); [| assumption].
    apply canvases_of_modes in Himgs.
    now rewrite (string_eqb_neq _ _ Hbg) in Himgs.
Qed.

Lemma sheet_background_witness :
  exists l sheet,
    char_loop block_env block_font sheet_request "AB" initial_locals
      empty_world = (inr l, empty_world)
    /\ sheet_canvas sheet_request l = inr sheet
    /\ im_mode sheet = RGBA
    /\ getpixel sheet 3 4 = Pixel 0 0 0 0.
Proof.
  eexists.
  destruct (sheet_background block_env block_font sheet_request _
              empty_world empty_world eq_refl eq_refl)
    as (sheet & Hs & Hmode & _ & Htransparent & _).
  exists sheet. split; [reflexivity |]. split; [exact Hs |].
  split; [exact Hmode |].
  now destruct (Htransparent eq_refl) as [-> _].
Defined.

(** ** C7: no characters, sheet mode *)

(** C7. With an empty character sequence in sheet mode no file is written
    whatever the machine is like, the sheet step allocates nothing, and
    once the font is loaded and the directory made the run ends well after
    printing its last line. *)
Theorem empty_sheet_no_file (env : Env) (req : RenderRequest) (w : World) :
  export_type req = "spritesheet" ->
  characters req = "" ->
  files (snd (render_font env req w)) = files w
  /\ export_sheet env req (sheet_name_of req) initial_locals (warned req w)
     = (inr tt, warned req w)
  /\ forall font,
      truetype env (font_path req) (font_size req) = Some font ->
      can_makedirs env (output_folder req) = true ->
      render_font env req w
      = (inr tt,
         {| files := files w;
            stdout := stdout (warned req w) ++ ["Rendering complete!"] |}).
Proof.
  intros Hexp Hchars.
  assert (Hfiles : files (warned req w) = files w).
  { unfold warned. now destruct (String.eqb _ _). }
  assert (Hsheet : forall w1,
             export_sheet env req (sheet_name_of req) initial_locals w1
             = (inr tt, w1)).
  { intros w1. unfold export_sheet. rewrite Hexp. reflexivity. }
  assert (Hrun : forall font,
             truetype env (font_path req) (font_size req) = Some font ->
             can_makedirs env (output_folder req) = true ->
             render_font env req w
             = (inr tt,
                {| files := files w;
                   stdout := stdout (warned req w)
                             ++ ["Rendering complete!"] |})).
  { intros font Hfont Hdir.
    rewrite (render_font_loaded env req w font) by assumption.
    rewrite Hchars. cbn [char_loop]. unfold ret. rewrite Hsheet.
    unfold print. now rewrite Hfiles. }
  split; [| split; [apply Hsheet | exact Hrun]].
  destruct (truetype env (font_path req) (font_size req)) as [font |] eqn:Hfont.
  - destruct (can_makedirs env (output_folder req)) eqn:Hdir.
    + now rewrite (Hrun font).
    + now rewrite (render_font_no_directory env req w font).
  - now rewrite render_font_no_font.
Qed.

Lemma empty_sheet_no_file_witness :
  render_font block_env empty_sheet_request empty_world
  = (inr tt, {| files := ∅; stdout := ["Rendering complete!"] |}).
Proof.
  destruct (empty_sheet_no_file block_env empty_sheet_request empty_world
              eq_refl eq_refl) as (_ & _ & H).
  exact (H block_font eq_refl eq_refl).
Defined.

(** ** C10: the background colour in transparent mode *)

Lemma glyph_canvas_bg_color (font : FreeTypeFont) (req : RenderRequest)
  (c1 c2 : Z * Z * Z) (char : ascii) :
  bg_type req = "transparent" ->
  glyph_canvas font (with_bg_color req c1) char
  = glyph_canvas font (with_bg_color req c2) char.
Proof.
  intros Hbg. unfold glyph_canvas, blank_canvas.
  change (bg_type (with_bg_color req c1)) with (bg_type req).
  change (bg_type (with_bg_color req c2)) with (bg_type req).
  rewrite Hbg. reflexivity.
Qed.

Lemma char_loop_bg_color (env : Env) (font : FreeTypeFont)
  (req : RenderRequest) (c1 c2 : Z * Z * Z) (chars : string) (l : locals)
  (w : World) :
  bg_type req = "transparent" ->
  char_loop env font (with_bg_color req c1) chars l w
  = char_loop env font (with_bg_color req c2) chars l w.
Proof.
  intros Hbg. revert l w; induction chars as [| c chars IH]; intros l w.
  - reflexivity.
  - cbn [char_loop]. unfold bind.
    assert (Hbody : loop_body env font (with_bg_color req c1) c l w
                    = loop_body env font (with_bg_color req c2) c l w).
    { unfold loop_body. now rewrite (glyph_canvas_bg_color font req c1 c2). }
    rewrite Hbody.
    destruct (loop_body env font (with_bg_color req c2) c l w) as [[e | l'] w'];
      [reflexivity | apply IH].
Qed.

Lemma sheet_canvas_bg_color (req : RenderRequest) (c1 c2 : Z * Z * Z)
  (l : locals) :
  bg_type req = "transparent" ->
  sheet_canvas (with_bg_color req c1) l = sheet_canvas (with_bg_color req c2) l.
Proof.
  intros Hbg. unfold sheet_canvas.
  change (bg_type (with_bg_color req c1)) with (bg_type req).
  change (bg_type (with_bg_color req c2)) with (bg_type req).
  now rewrite Hbg.
Qed.

(** C10. With the transparent background type the background colour is
    never read: two runs that differ in it alone allocate the same glyph
    canvases and the same sheet, and end with the same result in the same
    world. *)
Theorem transparent_ignores_bg_color (env : Env) (req : RenderRequest)
  (c1 c2 : Z * Z * Z) (w : World) :
  bg_type req = "transparent" ->
  (forall font char,
      glyph_canvas font (with_bg_color req c1) char
      = glyph_canvas font (with_bg_color req c2) char)
  /\ (forall l,
        sheet_canvas (with_bg_color req c1) l
        = sheet_canvas (with_bg_color req c2) l)
  /\ render_font env (with_bg_color req c1) w
     = render_font env (with_bg_color req c2) w.
Proof.
  intros Hbg.
  split; [intros; now apply glyph_canvas_bg_color |].
  split; [intros; now apply sheet_canvas_bg_color |].
  assert (Hsheet : forall name l w1,
             export_sheet env (with_bg_color req c1) name l w1
             = export_sheet env (with_bg_color req c2) name l w1).
  { intros name l w1. unfold export_sheet.
    now rewrite (sheet_canvas_bg_color req c1 c2). }
  destruct (truetype env (font_path req) (font_size req)) as [font |] eqn:Hfont.
  - destruct (can_makedirs env (output_folder req)) eqn:Hdir.
    + rewrite (render_font_loaded env (with_bg_color req c1) w font),
        (render_font_loaded env (with_bg_color req c2) w font)
        by assumption.
      change (warned (with_bg_color req c1) w) with (warned req w).
      change (warned (with_bg_color req c2) w) with (warned req w).
      change (characters (with_bg_color req c1)) with (characters req).
      change (characters (with_bg_color req c2)) with (characters req).
      rewrite (char_loop_bg_color env font req c1 c2) by assumption.
      destruct (char_loop env font (with_bg_color req c2) (characters req)
                  initial_locals (warned req w)) as [[e | l] w1];
        [reflexivity |].
      change (sheet_name_of (with_bg_color req c1)) with (sheet_name_of req).
      change (sheet_name_of (with_bg_color req c2)) with (sheet_name_of req).
      now rewrite Hsheet.
    + now rewrite (render_font_no_directory env (with_bg_color req c1) w font),
        (render_font_no_directory env (with_bg_color req c2) w font).
  - now rewrite (render_font_no_font env (with_bg_color req c1) w),
      (render_font_no_font env (with_bg_color req c2) w).
Qed.

Lemma transparent_ignores_bg_color_witness :
  render_font block_env (with_bg_color sheet_request (1, 2, 3)) empty_world
  = render_font block_env (with_bg_color sheet_request (255, 0, 0))
      empty_world.
Proof.
  apply (transparent_ignores_bg_color block_env sheet_request (1, 2, 3)
           (255, 0, 0) empty_world eq_refl).
Defined.

(** ** C9: determinism *)

Lemma after_nil (w : World) : after [] [] w = w.
Proof. unfold after. cbn. rewrite app_nil_r. now destruct w. Qed.


Lemma uniform_ret {A} (a : A) : uniform (ret a).
Proof. exists (inr a), [], []. intros w. now rewrite after_nil. Qed.

Lemma uniform_raise {A} (e : exn) : uniform (@raise A e).
Proof. exists (inl e), [], []. intros w. now rewrite after_nil. Qed.

Lemma uniform_lift {A} (r : exn + A) : uniform (lift r).
Proof. exists r, [], []. intros w. now rewrite after_nil. Qed.

Lemma uniform_print (line : string) : uniform (print line).
Proof. exists (inr tt), [], [line]. intros w. reflexivity. Qed.

Lemma uniform_save (env : Env) (image : Image) (path : string) :
  uniform (Image_save env image path).
Proof.
  unfold Image_save.
  destruct (negb (can_write env path)).
  - exists (inl (OSError "cannot write file")), [], [].
    intros w. now rewrite after_nil.
  - destruct ((width image <=? 0) || (height image <=? 0)).
    + exists (inl (SystemError "tile cannot extend outside image")), [], [].
      intros w. now rewrite after_nil.
    + exists (inr tt), [(path, image)], []. intros w.
      unfold after. cbn. now rewrite app_nil_r.
Qed.


Create HintDb uniform.
#[local] Hint Resolve uniform_ret uniform_raise uniform_lift uniform_print
  uniform_save : uniform.







(** ** C8: one file per distinct character *)

Lemma append_inj_l (a b c : string) : a ++ b = a ++ c -> b = c.
Proof.
  induction a as [| x a IH]; [trivial |].
  intros H. apply IH. now injection H.
Qed.

Lemma startswith_slash (c : ascii) (rest : string) :
  Py.startswith (String c rest) "/" = true <-> c = "/"%char.
Proof.
  unfold Py.startswith. cbn [String.length Py.slice_to].
  rewrite String.eqb_eq. split; [now intros [= ->] | now intros ->].
Qed.

(** Two characters never share a file. *)
Lemma glyph_path_inj (req : RenderRequest) (c1 c2 : ascii) :
  glyph_path req c1 = glyph_path req c2 -> c1 = c2.
Proof.
  unfold glyph_path, Py.os_path_join.
  destruct (Py.startswith (String c1 ".png") "/") eqn:E1;
    destruct (Py.startswith (String c2 ".png") "/") eqn:E2.
  - now intros [= ->].
  - apply startswith_slash in E1 as ->.
    destruct (String.eqb (output_folder req) "" || _); intros H;
      pose proof (f_equal String.length H) as Hlen;
      rewrite ?string_length_app in Hlen; cbn [String.length] in Hlen.
    + destruct (output_folder req); [| cbn in Hlen; lia].
      cbn in H. now injection H.
    + lia.
  - apply startswith_slash in E2 as ->.
    destruct (String.eqb (output_folder req) "" || _); intros H;
      pose proof (f_equal String.length H) as Hlen;
      rewrite ?string_length_app in Hlen; cbn [String.length] in Hlen.
    + destruct (output_folder req); [| cbn in Hlen; lia].
      cbn in H. now injection H.
    + lia.
  - destruct (String.eqb (output_folder req) "" || _); intros H.
    + apply append_inj_l in H. now injection H.
    + apply append_inj_l, append_inj_l in H. now injection H.
Qed.










(** * Further properties of the program *)

(** ** The validator, run twice *)

Lemma validated_ends_png (name : string) :
  Py.endswith (Py.lower (validated name)) ".png" = true.
Proof.
  unfold validated.
  destruct (Py.endswith (Py.lower name) ".png") eqn:E; [exact E |].
  rewrite lower_app. apply (endswith_app (Py.lower name) ".png").
Qed.

(** X1. The validator is idempotent: the name it returns passes its own
    test, so validating that name again returns it unchanged and prints
    nothing more; a run of the validator followed by a second one is the
    first run alone. The name returned is the input or the input with
    [.png] after it. *)
Theorem validate_spritesheet_name_twice (name : string) (w : World) :
  (n <- validate_spritesheet_name name ;; validate_spritesheet_name n) w
  = validate_spritesheet_name name w
  /\ ends_with_png_any_case (validated name)
  /\ fst (validate_spritesheet_name name w) = inr (validated name)
  /\ (validated name = name \/ validated name = name ++ ".png").
Proof.
  pose proof (validated_ends_png name) as Hends.
  split; [| split; [| split]].
  - unfold bind. rewrite !validate_spritesheet_name_run.
    rewrite Hends. cbn [files stdout].
    assert (Hidem : validated (validated name) = validated name)
      by (unfold validated at 1; now rewrite Hends).
    now rewrite Hidem, app_nil_r.
  - now apply endswith_lower_png.
  - now rewrite validate_spritesheet_name_run.
  - clear Hends. unfold validated.
    destruct (Py.endswith (Py.lower name) ".png"); auto.
Qed.

(** ** The sheet name outside sheet mode *)

Lemma export_sheet_not_sheet (env : Env) (req : RenderRequest)
  (name : string) (l : locals) (w : World) :
  export_type req <> "spritesheet" ->
  export_sheet env req name l w = (inr tt, w).
Proof.
  intros Hexp. unfold export_sheet.
  now rewrite (string_eqb_neq _ _ Hexp).
Qed.

(** X2. Unless the export type is [spritesheet] the sheet name is neither
    validated nor used: no warning is printed for a name without [.png],
    and two runs that differ in the sheet name alone end with the same
    result in the same world. *)
Theorem sheet_name_unused (env : Env) (req : RenderRequest)
  (name1 name2 : string) (w : World) :
  export_type req <> "spritesheet" ->
  render_font env (with_spritesheet_name req name1) w
  = render_font env (with_spritesheet_name req name2) w.
Proof.
  intros Hexp.
  assert (Hwarned : forall name,
             warned (with_spritesheet_name req name) w = w).
  { intros name. unfold warned.
    change (export_type (with_spritesheet_name req name))
      with (export_type req).
    now rewrite (string_eqb_neq _ _ Hexp). }
  assert (Hloop : forall font name l w0,
             char_loop env font (with_spritesheet_name req name)
               (characters req) l w0
             = char_loop env font req (characters req) l w0).
  { intros font name. induction (characters req) as [| c chars IH];
      intros l w0; [reflexivity |].
    cbn [char_loop]. unfold bind.
    change (loop_body env font (with_spritesheet_name req name) c l w0)
      with (loop_body env font req c l w0).
    destruct (loop_body env font req c l w0) as [[e | l'] w1];
      [reflexivity | apply IH]. }
  destruct (truetype env (font_path req) (font_size req)) as [font |] eqn:Hfont.
  - destruct (can_makedirs env (output_folder req)) eqn:Hdir.
    + rewrite (render_font_loaded env (with_spritesheet_name req name1) w font),
        (render_font_loaded env (with_spritesheet_name req name2) w font)
        by assumption.
      rewrite !Hwarned.
      change (characters (with_spritesheet_name req name1))
        with (characters req).
      change (characters (with_spritesheet_name req name2))
        with (characters req).
      rewrite !Hloop.
      destruct (char_loop env font req (characters req) initial_locals w)
        as [[e | l] w1]; [reflexivity |].
      now rewrite !export_sheet_not_sheet.
    + rewrite (render_font_no_directory env
                 (with_spritesheet_name req name1) w font),
        (render_font_no_directory env
           (with_spritesheet_name req name2) w font) by assumption.
      now rewrite !Hwarned.
  - rewrite (render_font_no_font env (with_spritesheet_name req name1) w),
      (render_font_no_font env (with_spritesheet_name req name2) w)
      by assumption.
    now rewrite !Hwarned.
Qed.

Lemma sheet_name_unused_witness :
  render_font block_env (with_spritesheet_name separate_request "sheet")
    empty_world
  = render_font block_env (with_spritesheet_name separate_request "other.png")
      empty_world.
Proof.
  apply (sheet_name_unused block_env separate_request "sheet" "other.png"
           empty_world).
  discriminate.
Defined.

(** ** What a run prints and where it writes *)

Lemma Image_save_world (env : Env) (image : Image) (path : string)
  (w w' : World) (r : exn + unit) :
  Image_save env image path w = (r, w') ->
  stdout w' = stdout w
  /\ (forall other, other <> path -> files w' !! other = files w !! other)
  /\ (forall e, r = inl e -> w' = w).
Proof.
  unfold Image_save.
  destruct (negb _); [intros [= <- <-]; eauto |].
  destruct (_ || _); [intros [= <- <-]; eauto |].
  intros [= <- <-]. cbn [files stdout].
  repeat split; [| discriminate].
  intros other Hother. now apply lookup_insert_ne.
Qed.

Lemma loop_body_world (env : Env) (font : FreeTypeFont) (req : RenderRequest)
  (char : ascii) (l : locals) (w w' : World) (r : exn + locals) :
  loop_body env font req char l w = (r, w') ->
  stdout w' = stdout w
  /\ (forall other,
         other <> glyph_path req char ->
         files w' !! other = files w !! other)
  /\ (String.eqb (export_type req) "separate" = false -> w' = w)
  /\ (forall e, r = inl e -> w' = w).
Proof.
  unfold loop_body. run.
  destruct (glyph_canvas font req char) as [e | image];
    [intros [= <- <-]; eauto |].
  destruct (String.eqb (export_type req) "separate").
  - fold (glyph_path req char).
    destruct (Image_save env image (glyph_path req char) w)
      as [[e | []] w1] eqn:Hsave;
      apply Image_save_world in Hsave as (Hout & Hfiles & Hfail);
      intros [= <- <-].
    + rewrite (Hfail e eq_refl). repeat split; congruence.
    + repeat split; try assumption; discriminate.
  - intros [= <- <-]. repeat split; discriminate.
Qed.

Lemma char_loop_stdout (env : Env) (font : FreeTypeFont)
  (req : RenderRequest) (chars : string) (l : locals) (w w' : World)
  (r : exn + locals) :
  char_loop env font req chars l w = (r, w') -> stdout w' = stdout w.
Proof.
  revert l w; induction chars as [| c chars IH]; intros l w;
    cbn [char_loop].
  - run. now intros [= <- <-].
  - unfold bind.
    destruct (loop_body env font req c l w) as [[e | l'] w1] eqn:Hbody;
      apply loop_body_world in Hbody as (Hout & _).
    + now intros [= <- <-].
    + intros H. apply IH in H. congruence.
Qed.

Lemma export_sheet_world (env : Env) (req : RenderRequest) (name : string)
  (l : locals) (w w' : World) (r : exn + unit) :
  export_sheet env req name l w = (r, w') ->
  stdout w' = stdout w
  /\ (forall other,
         other <> Py.os_path_join (output_folder req) name ->
         files w' !! other = files w !! other)
  /\ (forall e, r = inl e -> w' = w).
Proof.
  unfold export_sheet. run.
  destruct (_ && _); [| intros [= <- <-]; repeat split; discriminate].
  destruct (sheet_canvas req l) as [e | sheet];
    [intros [= <- <-]; eauto |].
  destruct (paste_loop sheet 0 (images l)) as [e | out];
    [intros [= <- <-]; eauto |].
  apply Image_save_world.
Qed.

(** X3. A run prints the completion line exactly when it returns normally,
    and as its last line; a run that raises has printed nothing but the
    warning of the validator, if there was one. *)
Theorem render_font_stdout (env : Env) (req : RenderRequest) (w : World) :
  stdout (snd (render_font env req w))
  = (stdout (warned req w)
     ++ completion_line (fst (render_font env req w)))%list.
Proof.
  destruct (truetype env (font_path req) (font_size req)) as [font |] eqn:Hfont.
  - destruct (can_makedirs env (output_folder req)) eqn:Hdir.
    + rewrite (render_font_loaded env req w font) by assumption.
      destruct (char_loop env font req (characters req) initial_locals
                  (warned req w)) as [[e | l] w1] eqn:Hloop;
        apply char_loop_stdout in Hloop.
      * cbn. now rewrite app_nil_r.
      * destruct (export_sheet env req (sheet_name_of req) l w1)
          as [[e | []] w2] eqn:Hsheet;
          apply export_sheet_world in Hsheet as (Hout & _).
        -- cbn. rewrite app_nil_r. congruence.
        -- cbn. congruence.
    + rewrite (render_font_no_directory env req w font) by assumption.
      cbn. now rewrite app_nil_r.
  - rewrite render_font_no_font by assumption. cbn. now rewrite app_nil_r.
Qed.



(** ** A sheet run that ends well *)




(** ** A separate run that fails on the way *)





(** ** An export type the program does not know *)

(** X7. An export type other than [separate] and [spritesheet] is not
    refused: the run renders every character, writes no file at all
    whatever happens, and, when the font loads, the directory can be made
    and every canvas can be allocated, returns normally after printing
    the completion line. *)
Theorem unknown_export_type (env : Env) (req : RenderRequest) (w : World) :
  export_type req <> "separate" ->
  export_type req <> "spritesheet" ->
  files (snd (render_font env req w)) = files w
  /\ forall font,
      truetype env (font_path req) (font_size req) = Some font ->
      can_makedirs env (output_folder req) = true ->
      Forall (fun c => 0 <= canvas_width font req c
                       /\ 0 <= canvas_height font req c)
        (chars_of (characters req)) ->
      render_font env req w
      = (inr tt,
         {| files := files w;
            stdout := stdout w ++ ["Rendering complete!"] |}).
Proof.
  intros Hsep Hsheet.
  apply string_eqb_neq in Hsep.
  assert (Hwarned : warned req w = w).
  { unfold warned. now rewrite (string_eqb_neq _ _ Hsheet). }
  split.
  - destruct (truetype env (font_path req) (font_size req))
      as [font |] eqn:Hfont.
    + destruct (can_makedirs env (output_folder req)) eqn:Hdir.
      * rewrite (render_font_loaded env req w font) by assumption.
        rewrite char_loop_retained, Hwarned by assumption.
        destruct (canvases_of font req (chars_of (characters req)));
          [reflexivity |].
        now rewrite export_sheet_not_sheet.
      * rewrite (render_font_no_directory env req w font) by assumption.
        now rewrite Hwarned.
    + rewrite render_font_no_font by assumption. now rewrite Hwarned.
  - intros font Hfont Hdir Hsizes.
    destruct (canvases_of_ok font req _ Hsizes) as [imgs Himgs].
    rewrite (render_font_loaded env req w font) by assumption.
    rewrite char_loop_retained, Hwarned, Himgs by assumption.
    now rewrite export_sheet_not_sheet.
Qed.

Lemma unknown_export_type_witness :
  render_font block_env atlas_request empty_world
  = (inr tt, {| files := ∅; stdout := ["Rendering complete!"] |}).
Proof.
  destruct (unknown_export_type block_env atlas_request empty_world)
    as [_ H]; try discriminate.
  apply (H block_font); try reflexivity.
  repeat constructor; discriminate.
Defined.

(** ** The cells of the sheet *)

Lemma offset_of_mono (imgs : list Image) (i j : nat) (img : Image) :
  Forall (fun img => 0 <= width img) imgs ->
  imgs !! i = Some img ->
  (i < j <= length imgs)%nat ->
  offset_of imgs i + width img <= offset_of imgs j.
Proof.
  intros H. revert i j.
  induction H as [| img0 imgs Hw0 Hall IH]; intros i j Hi Hij;
    [discriminate Hi |].
  destruct j as [| j]; [lia |]. rewrite offset_of_S.
  destruct i as [| i].
  - injection Hi as ->. rewrite offset_of_0.
    assert (0 <= offset_of imgs j).
    { clear -Hall. revert j. induction Hall as [| a imgs Ha _ IH];
        intros [| j]; try (unfold offset_of; cbn; lia).
      rewrite offset_of_S. specialize (IH j). lia. }
    lia.
  - cbn [lookup list_lookup] in Hi. rewrite offset_of_S.
    cbn [length] in Hij. specialize (IH i j Hi ltac:(lia)). lia.
Qed.

(** What the loop leaves, for the sheet allocated from it: every canvas
    lies on the sheet. *)
Lemma canvases_on_sheet (font : FreeTypeFont) (req : RenderRequest)
  (chars : list ascii) (l : locals) (sheet : Image) (i : nat) (img : Image) :
  canvases_of font req chars = inr (images l) ->
  total_width l = sum_of_widths font req chars ->
  max_height l
  = foldl (fun m c => Z.max m (canvas_height font req c)) 0 chars ->
  sheet_canvas req l = inr sheet ->
  images l !! i = Some img ->
  0 <= offset_of (images l) i
  /\ offset_of (images l) i + width img <= width sheet
  /\ 0 <= height img <= height sheet.
Proof.
  intros Himgs Htw Hmh Hs Hi.
  pose proof (canvases_of_inr _ _ _ _ Himgs) as Hpairs.
  destruct (sum_of_widths_images font req _ _ Hpairs) as [Hsum Hwidths].
  destruct (offset_of_le_total _ _ _ Hwidths Hi) as [Hoff Htotal].
  pose proof (height_le_max font req _ _ i img 0 Hpairs Hi) as Hheight.
  unfold sheet_canvas in Hs.
  apply Image_new_inr in Hs as (_ & _ & _ & Hsw & Hsh & _).
  assert (0 <= height img).
  { apply list_elem_of_lookup_2 in Hi.
    apply canvases_of_inr in Himgs.
    clear -Himgs Hi. induction Himgs as [| c image chars imgs Hc _ IH];
      [now apply not_elem_of_nil in Hi |].
    apply elem_of_cons in Hi as [-> | Hi]; [| now apply IH].
    apply glyph_canvas_inr in Hc. lia. }
  lia.
Qed.

(** X8. In sheet mode there is one cell for every character of the input,
    duplicates included; every canvas lies within the sheet (pasting never
    clips a glyph), and the cells do not overlap: a canvas ends where or
    before every later one begins. *)
Theorem sheet_cells (env : Env) (font : FreeTypeFont) (req : RenderRequest)
  (l : locals) (sheet : Image) (w w' : World) :
  export_type req = "spritesheet" ->
  char_loop env font req (characters req) initial_locals w = (inr l, w') ->
  sheet_canvas req l = inr sheet ->
  length (images l) = String.length (characters req)
  /\ (forall i img,
        images l !! i = Some img ->
        0 <= offset_of (images l) i
        /\ offset_of (images l) i + width img <= width sheet
        /\ 0 <= height img <= height sheet)
  /\ (forall i j img,
        images l !! i = Some img ->
        (i < j < length (images l))%nat ->
        offset_of (images l) i + width img <= offset_of (images l) j).
Proof.
  intros Hexp Hl Hs.
  apply char_loop_retained_locals in Hl
    as (_ & Himgs & Htw & Hmh & _ & _); [| now rewrite Hexp].
  pose proof (canvases_of_inr _ _ _ _ Himgs) as Hpairs.
  split; [| split].
  - apply Forall2_length in Hpairs. rewrite <- Hpairs.
    unfold chars_of. clear. induction (characters req); cbn; congruence.
  - intros i img Hi.
    now apply (canvases_on_sheet font req (chars_of (characters req))).
  - intros i j img Hi Hij.
    destruct (sum_of_widths_images font req _ _ Hpairs) as [_ Hwidths].
    apply offset_of_mono; [assumption | assumption | lia].
Qed.

Lemma sheet_cells_witness :
  exists l sheet,
    char_loop block_env block_font sheet_request "AB" initial_locals
      empty_world = (inr l, empty_world)
    /\ sheet_canvas sheet_request l = inr sheet
    /\ length (images l) = 2%nat.
Proof.
  eexists. eexists. split; [reflexivity |]. split; [reflexivity |].
  apply (sheet_cells block_env block_font sheet_request _ _ empty_world
           empty_world eq_refl eq_refl eq_refl).
Defined.

(** ** The pixels of the transparent sheet *)

Lemma blend_pixel_mask_255 (p q : pixel) :
  byte_pixel q -> blend_pixel 255 p q = q.
Proof.
  intros (Hr & Hg & Hb & Ha). unfold blend_pixel.
  rewrite !blend_mask_255 by assumption. now destruct q.
Qed.

Lemma transparent_sheet_fill (req : RenderRequest) (l : locals)
  (sheet : Image) :
  bg_type req = "transparent" ->
  sheet_canvas req l = inr sheet ->
  im_mode sheet = RGBA /\ forall x y, getpixel sheet x y = Pixel 0 0 0 0.
Proof.
  intros Hbg Hs. unfold sheet_canvas in Hs. rewrite Hbg in Hs.
  apply Image_new_inr in Hs as (_ & _ & Hmode & _ & _ & Hfill).
  split; [assumption |]. intros x y. now rewrite Hfill.
Qed.

(** X9. On the composed transparent sheet a pixel of a canvas that is
    fully opaque is copied exactly, and one that is fully transparent
    leaves the sheet transparent: where the rasteriser writes bytes,
    composing loses nothing of such pixels. *)
Theorem sheet_copies_pixels (env : Env) (font : FreeTypeFont)
  (req : RenderRequest) (l : locals) (sheet out : Image) (w w' : World)
  (i : nat) (img : Image) (x y : Z) :
  export_type req = "spritesheet" ->
  bg_type req = "transparent" ->
  char_loop env font req (characters req) initial_locals w = (inr l, w') ->
  sheet_canvas req l = inr sheet ->
  paste_loop sheet 0 (images l) = inr out ->
  images l !! i = Some img ->
  0 <= x < width img -> 0 <= y < height img ->
  byte_pixel (getpixel img x y) ->
  (alpha (getpixel img x y) = 255 ->
   getpixel out (offset_of (images l) i + x) y = getpixel img x y)
  /\ (alpha (getpixel img x y) = 0 ->
      getpixel out (offset_of (images l) i + x) y = Pixel 0 0 0 0).
Proof.
  intros Hexp Hbg Hl Hs Hout Hi Hx Hy Hbyte.
  apply char_loop_retained_locals in Hl
    as (_ & Himgs & Htw & Hmh & _ & _); [| now rewrite Hexp].
  destruct (canvases_on_sheet font req _ l sheet i img Himgs Htw Hmh Hs Hi)
    as (Hoff & Hfit & Hheight).
  destruct (transparent_sheet_fill req l sheet Hbg Hs) as [Hmode Hfill].
  pose proof (canvases_of_inr _ _ _ _ Himgs) as Hpairs.
  destruct (sum_of_widths_images font req _ _ Hpairs) as [_ Hwidths].
  pose proof (canvases_of_modes _ _ _ _ Himgs) as Hmodes.
  rewrite Hbg in Hmodes.
  assert (Hall : Forall (fun img => im_mode img = RGBA /\ 0 <= width img)
                   (images l))
    by (apply Forall_and; split; assumption).
  pose proof (paste_loop_at (images l) sheet 0 out i img x y Hout Hmode Hall
                Hi Hx Hy) as Hat.
  rewrite !Z.add_0_l, Hfill in Hat.
  rewrite Hat by lia.
  split; intros Halpha; rewrite Halpha.
  - now apply blend_pixel_mask_255.
  - apply blend_pixel_mask_0. unfold byte_pixel. cbn. lia.
Qed.

Lemma sheet_copies_pixels_witness :
  exists l sheet out img,
    char_loop block_env block_font sheet_request "AB" initial_locals
      empty_world = (inr l, empty_world)
    /\ sheet_canvas sheet_request l = inr sheet
    /\ paste_loop sheet 0 (images l) = inr out
    /\ images l !! 1%nat = Some img
    /\ getpixel img 12 12 = Pixel 0 0 0 255
    /\ getpixel out (offset_of (images l) 1 + 12) 12 = getpixel img 12 12.
Proof.
  eexists. eexists. eexists. eexists.
  split; [reflexivity |]. split; [reflexivity |]. split; [reflexivity |].
  split; [reflexivity |]. split; [reflexivity |].
  eapply (sheet_copies_pixels block_env block_font sheet_request _ _ _
            empty_world empty_world 1 _ 12 12 eq_refl eq_refl).
  - reflexivity.
  - reflexivity.
  - reflexivity.
  - reflexivity.
  - vm_compute. split; (discriminate || reflexivity).
  - vm_compute. split; (discriminate || reflexivity).
  - vm_compute. repeat split; discriminate.
  - reflexivity.
Defined.

(** X10. Glyphs are aligned at the top of the sheet: under a canvas that
    is shorter than the sheet, the composed transparent sheet is
    transparent. *)
Theorem sheet_top_aligned (env : Env) (font : FreeTypeFont)
  (req : RenderRequest) (l : locals) (sheet out : Image) (w w' : World)
  (i : nat) (img : Image) (x y : Z) :
  export_type req = "spritesheet" ->
  bg_type req = "transparent" ->
  char_loop env font req (characters req) initial_locals w = (inr l, w') ->
  sheet_canvas req l = inr sheet ->
  paste_loop sheet 0 (images l) = inr out ->
  images l !! i = Some img ->
  0 <= x < width img -> height img <= y ->
  getpixel out (offset_of (images l) i + x) y = Pixel 0 0 0 0.
Proof.
  intros Hexp Hbg Hl Hs Hout Hi Hx Hy.
  apply char_loop_retained_locals in Hl
    as (_ & Himgs & _ & _ & _ & _); [| now rewrite Hexp].
  destruct (transparent_sheet_fill req l sheet Hbg Hs) as [_ Hfill].
  pose proof (canvases_of_inr _ _ _ _ Himgs) as Hpairs.
  destruct (sum_of_widths_images font req _ _ Hpairs) as [_ Hwidths].
  rewrite <- (Hfill (offset_of (images l) i + x) y).
  apply (paste_loop_outside _ _ _ _ _ _ Hout).
  - rewrite Hfill. unfold byte_pixel. cbn. lia.
  - intros j imgj Hj Hxj Hyj. exfalso. rewrite Z.add_0_l in Hxj.
    pose proof (lookup_lt_Some _ _ _ Hi) as Hilen.
    pose proof (lookup_lt_Some _ _ _ Hj) as Hjlen.
    destruct (Nat.lt_trichotomy i j) as [Hlt | [-> | Hgt]].
    + pose proof (offset_of_mono _ i j img Hwidths Hi ltac:(lia)). lia.
    + rewrite Hi in Hj. injection Hj as <-. lia.
    + pose proof (offset_of_mono _ j i imgj Hwidths Hj ltac:(lia)). lia.
Qed.

Lemma sheet_top_aligned_witness :
  exists l sheet out img,
    char_loop block_env stepped_font sheet_request "AB" initial_locals
      empty_world = (inr l, empty_world)
    /\ sheet_canvas sheet_request l = inr sheet
    /\ paste_loop sheet 0 (images l) = inr out
    /\ images l !! 1%nat = Some img
    /\ height img = 25 /\ height out = 27
    /\ getpixel out (offset_of (images l) 1 + 3) 26 = Pixel 0 0 0 0.
Proof.
  eexists. eexists. eexists. eexists.
  split; [reflexivity |]. split; [reflexivity |]. split; [reflexivity |].
  split; [reflexivity |]. split; [reflexivity |]. split; [reflexivity |].
  eapply (sheet_top_aligned block_env stepped_font sheet_request _ _ _
            empty_world empty_world 1 _ 3 26 eq_refl eq_refl).
  - reflexivity.
  - reflexivity.
  - reflexivity.
  - reflexivity.
  - vm_compute. split; (discriminate || reflexivity).
  - vm_compute. discriminate.
Defined.

(** ** Where the file of a character goes *)

(** X11. The file of a character is [<char>.png] put after the output
    folder, with a slash between them unless the folder is empty or ends
    in one; the character [/] is the exception: its file is [/.png], at
    the root, whatever the output folder. Two different characters never
    share a file. *)
Theorem glyph_path_layout (req : RenderRequest) (c : ascii) :
  (c <> "/"%char ->
   glyph_path req c
   = output_folder req
     ++ (if String.eqb (output_folder req) ""
            || Py.endswith (output_folder req) "/"
         then "" else "/")
     ++ String c ".png")
  /\ (c = "/"%char -> glyph_path req c = "/.png")
  /\ (forall c', glyph_path req c = glyph_path req c' -> c = c').
Proof.
  split; [| split].
  - intros Hc. unfold glyph_path, Py.os_path_join.
    destruct (Py.startswith (String c ".png") "/") eqn:E.
    + now apply startswith_slash in E.
    + now destruct (String.eqb (output_folder req) "" || _).
  - intros ->. reflexivity.
  - intros c'. apply glyph_path_inj.
Qed.

Lemma glyph_path_layout_witness :
  glyph_path separate_request "A" = "out/A.png"
  /\ glyph_path separate_request "/" = "/.png".
Proof.
  destruct (glyph_path_layout separate_request "A") as (HA & _ & _).
  destruct (glyph_path_layout separate_request "/") as (_ & Hslash & _).
  split; [apply HA; discriminate | now apply Hslash].
Defined.

(** ** A canvas of negative size *)

Lemma char_loop_inr_canvases (env : Env) (font : FreeTypeFont)
  (req : RenderRequest) (chars : string) (l l' : locals) (w w' : World) :
  char_loop env font req chars l w = (inr l', w') ->
  Forall (fun c => exists image, glyph_canvas font req c = inr image)
    (chars_of chars).
Proof.
  revert l w; induction chars as [| c chars IH]; intros l w;
    cbn [char_loop]; [constructor |].
  unfold bind.
  destruct (loop_body env font req c l w) as [[e | l1] w1] eqn:Hbody;
    [discriminate |].
  intros H. constructor; [| now apply (IH l1 w1)].
  unfold loop_body in Hbody. run.
  destruct (glyph_canvas font req c) as [e | image]; [discriminate | eauto].
Qed.

(** X12. Every character is rendered whatever the export type, so one
    character whose canvas would have a negative width or height (a
    negative padding larger than the glyph) is enough for the run never to
    return normally. *)
Theorem negative_canvas_never_succeeds (env : Env) (req : RenderRequest)
  (font : FreeTypeFont) (c : ascii) (w : World) :
  truetype env (font_path req) (font_size req) = Some font ->
  c ∈ chars_of (characters req) ->
  canvas_width font req c < 0 \/ canvas_height font req c < 0 ->
  exists e, fst (render_font env req w) = inl e.
Proof.
  intros Hfont Hc Hneg.
  destruct (can_makedirs env (output_folder req)) eqn:Hdir.
  - rewrite (render_font_loaded env req w font) by assumption.
    destruct (char_loop env font req (characters req) initial_locals
                (warned req w)) as [[e | l] w1] eqn:Hl; [cbn; eauto |].
    apply char_loop_inr_canvases in Hl.
    destruct (proj1 (Forall_forall _ _) Hl c Hc) as [image Himage].
    rewrite glyph_canvas_neg in Himage by assumption. discriminate.
  - rewrite (render_font_no_directory env req w font) by assumption.
    cbn. eauto.
Qed.

Lemma negative_canvas_never_succeeds_witness :
  exists e, fst (render_font block_env negative_request empty_world) = inl e.
Proof.
  apply (negative_canvas_never_succeeds block_env negative_request block_font
           "A" empty_world).
  - reflexivity.
  - vm_compute. constructor.
  - left. vm_compute. reflexivity.
Defined.
